(** * sentiment_pipeline/fetch_news.py: a shallow embedding

    The module fetches news metadata day by day, keeps the titles that
    mention a finance keyword, ranks each day's results, accumulates them,
    and finally deduplicates, sorts and writes the table.

    Conventions of the embedding.
    - A Python [str] is a [string] whose characters are the code points
      U+0000..U+00FF; [str.lower], the class [\w] and case-insensitive
      literal matching are modelled exactly on that range.
    - A Python [int] is a [Z]; a [float] is a [spec_float].
    - A [dict] used as a frequency table is a [gmap]; a JSON object is an
      association list in key order.
    - Exceptions are explicit: a computation yields [Ok v] or [Raise e],
      together with the events (console lines, network calls, pauses, file
      writes) it has produced.  Writing a console line or the file is
      taken to succeed; signals from outside the program
      ([KeyboardInterrupt]) are not part of the embedding.
    - The network is a function from the request to what [requests.get]
      does with it; each request of a run is made once.
    - The [while] loop carries a bound on its number of turns; the bound
      [main] uses is shown to be enough.
    - Of pandas, [drop_duplicates], [sort_values] and [to_csv] are embedded
      for tables whose url and date cells hold a [str] or are missing; for
      any other table [main] has no outcome in the embedding.  The order
      in which [sort_values] leaves rows of equal date is the
      environment's: a parameter [ties] of [main]. *)

From Stdlib Require Import ZArith List String Ascii Bool Lia Permutation Sorted.
From Stdlib Require Import Floats.SpecFloat.
From stdpp Require Import gmap strings.

Import ListNotations.
Local Open Scope string_scope.
Local Open Scope list_scope.
Local Open Scope Z_scope.

(** ** Characters and strings *)

Module Str.

Definition ord (c : ascii) : N := N_of_ascii c.

Definition between (lo hi : N) (c : ascii) : bool :=
  ((lo <=? ord c) && (ord c <=? hi))%N.

(** Characters changed by [str.lower]: A-Z and the accented capitals
    U+00C0..U+00DE except the multiplication sign U+00D7. *)
Definition is_upper (c : ascii) : bool :=
  between 65 90 c || (between 192 222 c && negb (ord c =? 215)%N).

Definition lower_char (c : ascii) : ascii :=
  if is_upper c then ascii_of_N (ord c + 32) else c.

(** [text.lower()] *)
Fixpoint lower (s : string) : string :=
  match s with
  | EmptyString => EmptyString
  | String c s' => String (lower_char c) (lower s')
  end.

(** The class [\w] of a [str] pattern: alphanumeric characters and the
    underscore. *)
Definition is_word_char (c : ascii) : bool :=
  between 48 57 c || between 65 90 c || (ord c =? 95)%N || between 97 122 c
  || (ord c =? 170)%N || between 178 179 c || (ord c =? 181)%N
  || between 185 186 c || between 188 190 c
  || between 192 214 c || between 216 246 c || between 248 255 c.

(** [flush run] closes the token being read, if any. *)
Definition flush (run : string) : list string :=
  match run with
  | EmptyString => []
  | _ => [run]
  end.

(** Left-to-right scan of [re.findall(r'\b\w+\b', s)]: [run] is the word
    read so far; a character outside [\w] (or the end of the text) ends
    it.  The greedy [\w+] between two [\b] is a maximal run of word
    characters. *)
Fixpoint scan_words (run : string) (s : string) : list string :=
  match s with
  | EmptyString => flush run
  | String c s' =>
      if is_word_char c
      then scan_words (run ++ String c EmptyString)%string s'
      else flush run ++ scan_words EmptyString s'
  end.

Definition findall_words (s : string) : list string :=
  scan_words EmptyString s.

(** [p] is a prefix of [s], character for character. *)
Fixpoint starts_with (p s : string) : bool :=
  match p, s with
  | EmptyString, _ => true
  | String a p', String b s' => Ascii.eqb a b && starts_with p' s'
  | String _ _, EmptyString => false
  end.

(** [p in s] for two strings. *)
Fixpoint contains (p s : string) : bool :=
  starts_with p s
  || match s with
     | EmptyString => false
     | String _ s' => contains p s'
     end.

(** A literal of an [re.IGNORECASE] pattern against the text at the
    current position: a pattern character and a text character agree
    when their lower-case forms are equal. *)
Fixpoint match_literal_ic (p s : string) : bool :=
  match p, s with
  | EmptyString, _ => true
  | String a p', String b s' =>
      Ascii.eqb (lower_char a) (lower_char b) && match_literal_ic p' s'
  | String _ _, EmptyString => false
  end.

Definition has_space (s : string) : bool := contains " " s.

End Str.

(** ** Python values *)

#[local] Unset Elimination Schemes.

Inductive pyval : Type :=
| PyNone
| PyBool (b : bool)
| PyInt (z : Z)
| PyFloat (f : spec_float)
| PyStr (s : string)
| PyList (l : list pyval)
| PyDict (d : list (string * pyval)).

#[local] Set Elimination Schemes.

(** Truth value of an object, as tested by [not x]. *)
Definition truthy (v : pyval) : bool :=
  match v with
  | PyNone => false
  | PyBool b => b
  | PyInt z => negb (z =? 0)
  | PyFloat (S754_zero _) => false
  | PyFloat _ => true
  | PyStr EmptyString => false
  | PyStr _ => true
  | PyList [] => false
  | PyList _ => true
  | PyDict [] => false
  | PyDict _ => true
  end.

(** ** Financial keywords *)

Definition FINANCE_KEYWORDS : list string :=
  [ "hdfc"; "hdfc bank"; "hdfc securities"; "hdfc credit card";
    "bank"; "banking"; "deposits"; "lending"; "nbfc"; "branch"; "retail banking";
    "wholesale banking"; "credit"; "loan"; "interest rate"; "fixed deposit";
    "stock"; "share"; "equity"; "nse"; "bse"; "ipo"; "dividend"; "valuation";
    "market cap"; "investor"; "investment"; "mutual fund"; "portfolio";
    "profit"; "revenue"; "earnings"; "net income"; "quarterly results";
    "q1 results"; "q2 results"; "q3 results"; "q4 results"; "financial year";
    "rbi"; "reserve bank of india"; "monetary policy"; "repo rate";
    "liquidity"; "npas"; "non performing asset"; "asset quality";
    "crr"; "slr"; "basel norms"; "regulatory"; "merger"; "acquisition" ].

(** [re.compile("|".join(map(re.escape, kws)), re.IGNORECASE)]: an
    alternation of literals.  [re.escape] only protects the blank of a
    keyword, so each alternative is the keyword itself. *)
Record pattern := { alternatives : list string }.

Definition compile_keywords (kws : list string) : pattern :=
  {| alternatives := kws |}.

Definition KEYWORD_PATTERN : pattern := compile_keywords FINANCE_KEYWORDS.

(** Some alternative matches at the start of [s]. *)
Definition match_here (p : pattern) (s : string) : bool :=
  existsb (fun k => Str.match_literal_ic k s) (alternatives p).

(** [bool(p.search(s))]: some alternative matches at some position. *)
Fixpoint search (p : pattern) (s : string) : bool :=
  match_here p s
  || match s with
     | EmptyString => false
     | String _ s' => search p s'
     end.

(** ** Relevance scoring *)

(** [Counter(words)]: each word in turn gets its count raised by one. *)
Definition Counter (words : list string) : gmap string Z :=
  foldl (fun m w => <[ w := default 0 (m !! w) + 1 ]> m) ∅ words.

(** [counts.get(k, d)] *)
Definition counter_get (counts : gmap string Z) (k : string) (d : Z) : Z :=
  default d (counts !! k).

(** [sum(...)] of integers, from the left, starting at 0. *)
Definition py_sum (l : list Z) : Z := foldl Z.add 0 l.

Definition compute_relevance (text : pyval) : Z :=
  match text with
  | PyStr s =>
      let words := Str.findall_words (Str.lower s) in
      let counts := Counter words in
      py_sum (map (fun k => counter_get counts (Str.lower k) 0) FINANCE_KEYWORDS)
  | _ => 0
  end.


(** ** Effects: exceptions and the event log *)

(** The exception classes the module can meet; all derive from
    [Exception]. *)
Inductive exn : Type :=
| RequestException   (* requests.get: connection, timeout, ... *)
| JSONDecodeError    (* response.json() on a body that is not JSON *)
| TypeError
| AttributeError
| KeyError.

Inductive result (A : Type) : Type :=
| Ok (a : A)
| Raise (e : exn).

Arguments Ok {A} a.
Arguments Raise {A} e.

(** The two constant query expressions of the module. *)
Inductive query : Type := COMPANY_QUERY | SECTOR_QUERY.

(** A [dt.date] is a [day], its proleptic Gregorian ordinal
    ([date.toordinal()]): adding [timedelta(days=1)] adds one, [<=]
    compares ordinals. *)
Definition day : Type := Z.

Definition is_leap (y : Z) : bool :=
  (y mod 4 =? 0) && (negb (y mod 100 =? 0) || (y mod 400 =? 0)).

Definition days_before_year (y : Z) : Z :=
  let y := y - 1 in y * 365 + y / 4 - y / 100 + y / 400.

Definition days_before_month (y m : Z) : Z :=
  nth (Z.to_nat m) [0; 0; 31; 59; 90; 120; 151; 181; 212; 243; 273; 304; 334] 0
  + (if (2 <? m) && is_leap y then 1 else 0).

Definition mk_date (y m d : Z) : day :=
  days_before_year y + days_before_month y m + d.

Definition START_DATE : day := mk_date 2023 4 28.
Definition END_DATE : day := mk_date 2025 10 28.
Definition OUTPUT_FILE : string := "historical_news_hdfc_bank_filtered.csv".
Definition REQUEST_DELAY : Z := 15.

(** One normalized article: the dict built by the fetcher.  The title is
    the [str] that passed the keyword filter; the provider's other fields
    are stored as [a.get] returned them; [category] is absent until the
    orchestrator tags the record. *)
Record article : Type := {
  date : pyval;
  title : string;
  url : pyval;
  domain : pyval;
  language : pyval;
  source_country : pyval;
  relevance_score : Z;
  category : option string
}.

(** Console lines, by format string. *)
Inductive message : Type :=
| MsgHttpStatus (status : Z) (start_date : day) (body : string)
| MsgFetchError (start_date : day) (e : exn)
| MsgFetching (d : day)
| MsgCompanyTop (n : Z)
| MsgSectorTop (n : Z)
| MsgNoArticles
| MsgComplete
| MsgSummary (saved company sector : Z)
| MsgFile (file : string).

Inductive event : Type :=
| Get (q : query) (start_date end_date : day)
| Print (line : message)
| Sleep (seconds : Z)
| ToCsv (file : string) (rows : list article).

(** A computation: its outcome and the events it produced, in order. *)
Definition M (A : Type) : Type := (result A * list event)%type.

Definition ret {A : Type} (a : A) : M A := (Ok a, []).

Definition raise {A : Type} (e : exn) : M A := (Raise e, []).

Definition bind {A B : Type} (m : M A) (f : A -> M B) : M B :=
  match m with
  | (Ok a, w) => let (r, w') := f a in (r, w ++ w')
  | (Raise e, w) => (Raise e, w)
  end.

Definition emit (ev : event) : M unit := (Ok tt, [ev]).

Definition print (line : message) : M unit := emit (Print line).

(** [try: m  except Exception as e: h e] *)
Definition try_except {A : Type} (m : M A) (h : exn -> M A) : M A :=
  match m with
  | (Ok a, w) => (Ok a, w)
  | (Raise e, w) => let (r, w') := h e in (r, w ++ w')
  end.

Notation "x <- m ;; k" := (bind m (fun x => k))
  (at level 100, m at next level, right associativity).
Notation "m ;;; k" := (bind m (fun _ => k))
  (at level 100, right associativity).

(** ** The network *)

(** What [requests.get] hands back: the status, the body text, and the
    value [response.json()] decodes from it ([None] when the body is not
    JSON and decoding raises). *)
Record response : Type := {
  status_code : Z;
  text : string;
  json : option pyval
}.

Inductive reply : Type :=
| Failed                       (* requests.get raises *)
| Answered (r : response).

Definition network : Type := query -> day -> day -> reply.

Definition requests_get (net : network) (q : query) (start_date end_date : day)
  : M response :=
  emit (Get q start_date end_date) ;;;
  match net q start_date end_date with
  | Failed => raise RequestException
  | Answered r => ret r
  end.

Definition response_json (r : response) : M pyval :=
  match json r with
  | Some v => ret v
  | None => raise JSONDecodeError
  end.

(** ** Operations on Python values used by the fetcher *)

Fixpoint dict_lookup (d : list (string * pyval)) (k : string) : option pyval :=
  match d with
  | [] => None
  | (k', v) :: d' => if String.eqb k' k then Some v else dict_lookup d' k
  end.

Definition is_str (k : string) (v : pyval) : bool :=
  match v with
  | PyStr s => String.eqb s k
  | _ => false
  end.

(** [k in data] for a string [k]. *)
Definition py_contains (k : string) (data : pyval) : M bool :=
  match data with
  | PyDict d => ret (match dict_lookup d k with Some _ => true | None => false end)
  | PyList l => ret (existsb (is_str k) l)
  | PyStr s => ret (Str.contains k s)
  | _ => raise TypeError
  end.

(** [data[k]] for a string [k]. *)
Definition py_getitem (data : pyval) (k : string) : M pyval :=
  match data with
  | PyDict d =>
      match dict_lookup d k with
      | Some v => ret v
      | None => raise KeyError
      end
  | _ => raise TypeError
  end.

Fixpoint chars (s : string) : list pyval :=
  match s with
  | EmptyString => []
  | String c s' => PyStr (String c EmptyString) :: chars s'
  end.

(** The items [for a in v] runs over. *)
Definition py_iter (v : pyval) : M (list pyval) :=
  match v with
  | PyList l => ret l
  | PyDict d => ret (map (fun kv => PyStr (fst kv)) d)
  | PyStr s => ret (chars s)
  | _ => raise TypeError
  end.

(** [a.get(k, default)] *)
Definition py_get (a : pyval) (k : string) (default : pyval) : M pyval :=
  match a with
  | PyDict d =>
      match dict_lookup d k with
      | Some v => ret v
      | None => ret default
      end
  | _ => raise AttributeError
  end.

(** [KEYWORD_PATTERN.search(title)], defined on [str] only. *)
Definition pattern_search (p : pattern) (v : pyval) : M bool :=
  match v with
  | PyStr s => ret (search p s)
  | _ => raise TypeError
  end.

(** The text of a [str] object. *)
Definition as_str (v : pyval) : M string :=
  match v with
  | PyStr s => ret s
  | _ => raise TypeError
  end.

(** ** Fetch function *)

(** One turn of [for a in data["articles"]]: [articles] is the list built
    so far.  Where the record is built the title is known to be a [str]
    (the search has accepted it), so [as_str] only reads its text. *)
Definition fetch_one (articles : list article) (a : pyval) : M (list article) :=
  title_v <- py_get a "title" (PyStr "") ;;
  if negb (truthy title_v) then ret articles else
  found <- pattern_search KEYWORD_PATTERN title_v ;;
  if negb found then ret articles else
  let score := compute_relevance title_v in
  if score =? 0 then ret articles else
  title_s <- as_str title_v ;;
  seendate <- py_get a "seendate" PyNone ;;
  url_v <- py_get a "url" PyNone ;;
  domain_v <- py_get a "domain" PyNone ;;
  language_v <- py_get a "language" PyNone ;;
  country_v <- py_get a "sourcecountry" PyNone ;;
  ret (articles ++ [ {| date := seendate;
                        title := title_s;
                        url := url_v;
                        domain := domain_v;
                        language := language_v;
                        source_country := country_v;
                        relevance_score := score;
                        category := None |} ]).

Fixpoint for_each {A B : Type} (f : B -> A -> M B) (l : list A) (acc : B) : M B :=
  match l with
  | [] => ret acc
  | a :: l' => acc' <- f acc a ;; for_each f l' acc'
  end.

Definition fetch_body (net : network) (q : query) (start_date end_date : day)
  : M (list article) :=
  r <- requests_get net q start_date end_date ;;
  if negb (status_code r =? 200) then
    print (MsgHttpStatus (status_code r) start_date (String.substring 0 100 (text r))) ;;;
    ret []
  else
    data <- response_json r ;;
    present <- py_contains "articles" data ;;
    if negb present then ret [] else
    arts <- py_getitem data "articles" ;;
    items <- py_iter arts ;;
    for_each fetch_one items [].

Definition fetch_news_from_gdelt (net : network) (q : query)
  (start_date end_date : day) : M (list article) :=
  try_except (fetch_body net q start_date end_date)
    (fun e => print (MsgFetchError start_date e) ;;; ret []).

(** ** Sorting and the table operations *)

(** A stable sort: [before x y] says that [x] may stand in front of [y];
    among records that may stand either way round, the order of the input
    is kept. *)
Fixpoint insert_by {A : Type} (before : A -> A -> bool) (x : A) (l : list A)
  : list A :=
  match l with
  | [] => [x]
  | y :: l' => if before x y then x :: y :: l' else y :: insert_by before x l'
  end.

Fixpoint stable_sort {A : Type} (before : A -> A -> bool) (l : list A) : list A :=
  match l with
  | [] => []
  | x :: l' => insert_by before x (stable_sort before l')
  end.

(** [sorted(l, key=lambda x: x["relevance_score"], reverse=True)] *)
Definition score_before (x y : article) : bool :=
  relevance_score y <=? relevance_score x.

Definition sorted_by_score_desc (l : list article) : list article :=
  stable_sort score_before l.

(** [c["category"] = tag] *)
Definition set_category (tag : string) (a : article) : article :=
  {| date := date a; title := title a; url := url a; domain := domain a;
     language := language a; source_country := source_country a;
     relevance_score := relevance_score a; category := Some tag |}.

(** [len(l)] *)
Definition len {A : Type} (l : list A) : Z := Z.of_nat (length l).

(** A cell of the table is textual when it holds a [str] or is missing
    ([None]): the two shapes the provider's fields take. *)
Definition textual (v : pyval) : bool :=
  match v with
  | PyStr _ | PyNone => true
  | _ => false
  end.

Definition textual_urls (rows : list article) : bool :=
  forallb (fun a => textual (url a)) rows.

Definition textual_dates (rows : list article) : bool :=
  forallb (fun a => textual (date a)) rows.

(** [pd.DataFrame(rows)], for the tables the embedding covers: those whose
    url and date cells are textual.  On other cells pandas compares by
    the rules of each Python type, or raises; the embedding then gives no
    frame, and [main] no outcome. *)
Definition DataFrame (rows : list article) : option (list article) :=
  if textual_urls rows && textual_dates rows then Some rows else None.

(** Equality of two textual cells as [drop_duplicates] sees it: equal
    strings, or both missing. *)
Definition cell_eqb (a b : pyval) : bool :=
  match a, b with
  | PyStr x, PyStr y => String.eqb x y
  | PyNone, PyNone => true
  | _, _ => false
  end.

(** Order of two textual cells as [sort_values] sees it: strings
    ascending under [str] comparison (lexicographic on code points),
    missing values last. *)
Definition cell_leb (a b : pyval) : bool :=
  match a, b with
  | PyStr x, PyStr y => String.leb x y
  | _, PyNone => true
  | _, _ => false
  end.

(** The key of [subset=["title", "url"]]. *)
Definition same_key (a b : article) : bool :=
  String.eqb (title a) (title b) && cell_eqb (url a) (url b).

(** [df.drop_duplicates(subset=["title", "url"])]: going down the rows, a
    row is dropped when an earlier row had its key ([keep="first"]). *)
Fixpoint drop_duplicates_from (seen rows : list article) : list article :=
  match rows with
  | [] => []
  | r :: rows' =>
      if existsb (fun s => same_key s r) seen
      then drop_duplicates_from seen rows'
      else r :: drop_duplicates_from (seen ++ [r]) rows'
  end.

Definition drop_duplicates (rows : list article) : list article :=
  drop_duplicates_from [] rows.

(** The order in which the sort of the environment leaves rows of equal
    date.  pandas sorts with a quicksort that is not stable and does not
    say in which order equal keys come out; the embedding lets [ties]
    rearrange the rows first and then sorts them stably, so that every
    sorted rearrangement of the table is the result for some [ties]. *)
Definition rearrangement : Type := list article -> list article.

Definition permutes (ties : rearrangement) : Prop :=
  forall rows, Permutation (ties rows) rows.

(** The rearrangement that leaves the rows as they are. *)
Definition input_order : rearrangement := fun rows => rows.

(** [df.sort_values(by="date")]: ascending. *)
Definition date_before (x y : article) : bool := cell_leb (date x) (date y).

Definition sort_values_by_date (ties : rearrangement) (rows : list article)
  : list article :=
  stable_sort date_before (ties rows).

(** ** Main function *)

Record loop_state : Type := {
  all_articles : list article;
  total_company : Z;
  total_sector : Z;
  current_date : day
}.

(** The body of [while current_date <= END_DATE]. *)
Definition day_body (net : network) (st : loop_state) : M loop_state :=
  let next_date := current_date st + 1 in
  print (MsgFetching (current_date st)) ;;;
  company_articles <- fetch_news_from_gdelt net COMPANY_QUERY (current_date st) next_date ;;
  let company_articles := map (set_category "company") company_articles in
  let company_articles := firstn 15 (sorted_by_score_desc company_articles) in
  print (MsgCompanyTop (len company_articles)) ;;;
  sector_articles <- fetch_news_from_gdelt net SECTOR_QUERY (current_date st) next_date ;;
  let sector_articles := map (set_category "sector") sector_articles in
  let sector_articles := firstn 30 (sorted_by_score_desc sector_articles) in
  print (MsgSectorTop (len sector_articles)) ;;;
  emit (Sleep REQUEST_DELAY) ;;;
  ret {| all_articles := all_articles st ++ (company_articles ++ sector_articles);
         total_company := total_company st + len company_articles;
         total_sector := total_sector st + len sector_articles;
         current_date := next_date |}.

(** The loop, with a bound on the number of turns: [None] when the bound
    is reached before the condition fails. *)
Fixpoint while_days (fuel : nat) (net : network) (st : loop_state)
  : option (M loop_state) :=
  match fuel with
  | O => None
  | S fuel' =>
      if current_date st <=? END_DATE then
        match day_body net st with
        | (Ok st', w) =>
            match while_days fuel' net st' with
            | Some (r, w') => Some (r, w ++ w')
            | None => None
            end
        | (Raise e, w) => Some (Raise e, w)
        end
      else Some (ret st)
  end.

Definition initial_state : loop_state :=
  {| all_articles := []; total_company := 0; total_sector := 0;
     current_date := START_DATE |}.

(** What follows the loop.  [None]: the table is outside the embedding of
    pandas. *)
Definition materialize (ties : rearrangement) (st : loop_state) : option (M unit) :=
  match all_articles st with
  | [] => Some (print MsgNoArticles ;;; ret tt)
  | _ =>
      match DataFrame (all_articles st) with
      | None => None
      | Some df =>
          let df := drop_duplicates df in
          let df := sort_values_by_date ties df in
          Some (emit (ToCsv OUTPUT_FILE df) ;;;
                print MsgComplete ;;;
                print (MsgSummary (len df) (total_company st) (total_sector st)) ;;;
                print (MsgFile OUTPUT_FILE) ;;;
                ret tt)
      end
  end.

(** [main]: the loop, then what follows it when the loop has returned. *)
Definition main_bounded (fuel : nat) (ties : rearrangement) (net : network)
  : option (M unit) :=
  match while_days fuel net initial_state with
  | Some (Ok st, w) =>
      match materialize ties st with
      | Some (r, w') => Some (r, w ++ w')
      | None => None
      end
  | Some (Raise e, w) => Some (Raise e, w)
  | None => None
  end.

(** The number of days from [START_DATE] to [END_DATE], both included,
    and one more turn to see the condition fail. *)
Definition loop_bound : nat := Z.to_nat (END_DATE - START_DATE + 2).

Definition main (ties : rearrangement) (net : network) : option (M unit) :=
  main_bounded loop_bound ties net.

(** ** Reading the event log *)

Definition written (w : list event) : list (string * list article) :=
  flat_map (fun ev => match ev with ToCsv f rows => [(f, rows)] | _ => [] end) w.

Definition printed (w : list event) : list message :=
  flat_map (fun ev => match ev with Print m => [m] | _ => [] end) w.

Definition requested (w : list event) : list (query * day) :=
  flat_map (fun ev => match ev with Get q d _ => [(q, d)] | _ => [] end) w.

(** The days of the range: [n] days from [d] on. *)
Definition days_from (d : day) (n : nat) : list day :=
  map (fun i => d + Z.of_nat i) (seq 0 n).

Definition all_days : list day :=
  days_from START_DATE (Z.to_nat (END_DATE - START_DATE + 1)).

(** ** Notions used in the statements *)

(** How often [k] occurs in a list of words. *)
Definition frequency (k : string) (words : list string) : Z :=
  Z.of_nat (length (List.filter (String.eqb k) words)).

(** The keywords without a blank. *)
Definition single_word_keywords : list string :=
  List.filter (fun k => negb (Str.has_space k)) FINANCE_KEYWORDS.

Definition multi_word_keywords : list string :=
  List.filter Str.has_space FINANCE_KEYWORDS.

Definition sum_Z (l : list Z) : Z := fold_right Z.add 0 l.

(** Every character of [s] is in [\w]. *)
Fixpoint all_word (s : string) : bool :=
  match s with
  | EmptyString => true
  | String c s' => Str.is_word_char c && all_word s'
  end.

(** What the fetcher guarantees of a record it returns. *)
Definition retained (r : article) : Prop :=
  1 <= relevance_score r
  /\ relevance_score r = compute_relevance (PyStr (title r))
  /\ search KEYWORD_PATTERN (title r) = true
  /\ category r = None.

(** The list a fetch call for day [d] returns. *)
Definition fetched (net : network) (q : query) (d : day) : list article :=
  match fst (fetch_news_from_gdelt net q d (d + 1)) with
  | Ok l => l
  | Raise _ => []
  end.

(** The records one turn of the loop appends for day [d]. *)
Definition day_company (net : network) (d : day) : list article :=
  firstn 15 (sorted_by_score_desc (map (set_category "company") (fetched net COMPANY_QUERY d))).

Definition day_sector (net : network) (d : day) : list article :=
  firstn 30 (sorted_by_score_desc (map (set_category "sector") (fetched net SECTOR_QUERY d))).

Definition day_articles (net : network) (d : day) : list article :=
  day_company net d ++ day_sector net d.

(** The accumulator after the days [ds]. *)
Definition accumulated_over (net : network) (ds : list day) : list article :=
  flat_map (day_articles net) ds.

Definition accumulated (net : network) : list article :=
  accumulated_over net all_days.

(** Events a fetch call can produce. *)
Definition fetch_event (ev : event) : bool :=
  match ev with
  | Get _ _ _ => true
  | Print (MsgHttpStatus _ _ _) => true
  | Print (MsgFetchError _ _) => true
  | _ => false
  end.

(** Events the loop can produce: everything but the file write and the
    closing console lines. *)
Definition loop_event (ev : event) : bool :=
  match ev with
  | ToCsv _ _ => false
  | Print MsgNoArticles => false
  | Print MsgComplete => false
  | Print (MsgSummary _ _ _) => false
  | Print (MsgFile _) => false
  | _ => true
  end.

(** The two calls of one day. *)
Definition day_requests (d : day) : list (query * day) :=
  [(COMPANY_QUERY, d); (SECTOR_QUERY, d)].

Definition score_is (v : Z) (a : article) : bool := relevance_score a =? v.

Definition score_ge (x y : article) : Prop := relevance_score y <= relevance_score x.

(** [L] is the selection of the [n] best of the fetched list [F], tagged
    [tag]: [n] records, or all of [F] when it has fewer, all tagged, in
    descending score order; what is left out scores no higher than
    anything selected; and among records of one score the selection takes
    them in the order of [F]. *)
Definition top_selection (tag : string) (n : nat) (F L : list article) : Prop :=
  length L = Nat.min n (length F)
  /\ Forall (fun a => category a = Some tag) L
  /\ StronglySorted score_ge L
  /\ (exists rest,
        Permutation (map (set_category tag) F) (L ++ rest)
        /\ Forall (fun x => Forall (score_ge x) rest) L)
  /\ (forall v, exists tl,
        List.filter (score_is v) (map (set_category tag) F)
        = List.filter (score_is v) L ++ tl).

(** The state the loop ends in. *)
Definition final_state (net : network) : loop_state :=
  {| all_articles := accumulated net;
     total_company := sum_Z (map (fun d => len (day_company net d)) all_days);
     total_sector := sum_Z (map (fun d => len (day_sector net d)) all_days);
     current_date := END_DATE + 1 |}.

(** The pair a record is identified by. *)
Definition key (a : article) : string * pyval := (title a, url a).

(** [r] is the first record of [acc] with its key. *)
Definition first_with_key (acc : list article) (r : article) : Prop :=
  exists pre post, acc = pre ++ r :: post /\ Forall (fun a => key a <> key r) pre.

(** Some record of [rows] has the key of [a]. *)
Definition represented (rows : list article) (a : article) : Prop :=
  exists r, In r rows /\ key r = key a.

(** Non-decreasing dates: two strings compare as strings; a missing date
    follows everything. *)
Inductive date_order : pyval -> pyval -> Prop :=
| date_order_str (x y : string) : String.leb x y = true -> date_order (PyStr x) (PyStr y)
| date_order_none (a : pyval) : date_order a PyNone.

(** The rows of the file written for the accumulator [acc]. *)
Definition table (ties : rearrangement) (acc : list article) : list article :=
  sort_values_by_date ties (drop_duplicates acc).

(** The events after the loop, for a non-empty accumulator. *)
Definition closing_events (ties : rearrangement) (st : loop_state) : list event :=
  [ ToCsv OUTPUT_FILE (table ties (all_articles st));
    Print MsgComplete;
    Print (MsgSummary (len (table ties (all_articles st)))
             (total_company st) (total_sector st));
    Print (MsgFile OUTPUT_FILE) ].

(** The table of the accumulator is one the embedding of pandas covers. *)
Definition covered (acc : list article) : Prop :=
  textual_urls acc = true /\ textual_dates acc = true.

(** What a record of the output still owes to the fetcher. *)
Definition scored (r : article) : Prop :=
  1 <= relevance_score r
  /\ relevance_score r = compute_relevance (PyStr (title r)).

(** ** Sample provider data *)

Definition sample_article (t u seen : string) : pyval :=
  PyDict [("url", PyStr u); ("title", PyStr t); ("seendate", PyStr seen);
          ("domain", PyStr "example.org"); ("language", PyStr "English");
          ("sourcecountry", PyStr "India")].

Definition sample_response (arts : list pyval) : response :=
  {| status_code := 200; text := EmptyString;
     json := Some (PyDict [("articles", PyList arts)]) |}.

Definition server_error : response :=
  {| status_code := 500; text := "Internal Server Error"; json := None |}.

(** A provider that answers both queries of the first day with the same
    three records, fails with HTTP 500 on the second day, and is
    unreachable afterwards. *)
Definition sample_net : network :=
  fun q d e =>
    if d =? START_DATE then
      Answered (sample_response
        [ sample_article "RBI holds repo rate" "https://example.org/b" "20230428T101500Z";
          sample_article "HDFC Bank profit rises" "https://example.org/a" "20230428T080000Z";
          sample_article "Local weather turns cold" "https://example.org/c" "20230428T090000Z" ])
    else if d =? START_DATE + 1 then Answered server_error
    else Failed.

Definition is_summary (m : message) : bool :=
  match m with
  | MsgSummary _ _ _ => true
  | _ => false
  end.

(** ** Further notions: the fetcher on a decoded body *)

(** [a.get("title", "")] of a JSON object. *)
Definition title_of (d : list (string * pyval)) : pyval :=
  default (PyStr EmptyString) (dict_lookup d "title").

(** [a.get(k)] of a JSON object. *)
Definition field_of (d : list (string * pyval)) (k : string) : pyval :=
  default PyNone (dict_lookup d k).

(** The record the fetcher builds from the object [d] with title [t]. *)
Definition record_of (d : list (string * pyval)) (t : string) : article :=
  {| date := field_of d "seendate";
     title := t;
     url := field_of d "url";
     domain := field_of d "domain";
     language := field_of d "language";
     source_country := field_of d "sourcecountry";
     relevance_score := compute_relevance (PyStr t);
     category := None |}.

(** An element of the array the loop gets past: an object whose title is
    a [str], or is missing or another value that counts as false. *)
Definition well_titled (a : pyval) : bool :=
  match a with
  | PyDict d =>
      match title_of d with
      | PyStr _ => true
      | v => negb (truthy v)
      end
  | _ => false
  end.

(** What a well-titled element contributes: its record when the title
    scores, nothing otherwise. *)
Definition kept (a : pyval) : list article :=
  match a with
  | PyDict d =>
      match title_of d with
      | PyStr t => if 1 <=? compute_relevance (PyStr t) then [record_of d t] else []
      | _ => []
      end
  | _ => []
  end.

(** A response with status 200 whose body decodes to an object with the
    array [items] under "articles". *)
Definition carries (r : response) (items : list pyval) : Prop :=
  status_code r = 200
  /\ exists d, json r = Some (PyDict d)
              /\ dict_lookup d "articles" = Some (PyList items).

(** ** Further notions: the log of a run *)

(** The network calls and pauses of a log, in order. *)
Definition schedule (w : list event) : list event :=
  List.filter (fun ev => match ev with Get _ _ _ | Sleep _ => true | _ => false end) w.

(** The calls and the pause of one day. *)
Definition day_schedule (d : day) : list event :=
  [Get COMPANY_QUERY d (d + 1); Get SECTOR_QUERY d (d + 1); Sleep REQUEST_DELAY].

(** The counts of the per-day console lines. *)
Definition company_lines (w : list event) : list Z :=
  flat_map (fun ev => match ev with Print (MsgCompanyTop n) => [n] | _ => [] end) w.

Definition sector_lines (w : list event) : list Z :=
  flat_map (fun ev => match ev with Print (MsgSectorTop n) => [n] | _ => [] end) w.

(** What one turn of the loop writes to the log for day [d]. *)
Definition day_log (net : network) (d : day) : list event :=
  Print (MsgFetching d)
  :: snd (fetch_news_from_gdelt net COMPANY_QUERY d (d + 1))
  ++ Print (MsgCompanyTop (len (day_company net d)))
  :: snd (fetch_news_from_gdelt net SECTOR_QUERY d (d + 1))
  ++ [Print (MsgSectorTop (len (day_sector net d))); Sleep REQUEST_DELAY].

(** [r] is a record returned by the fetch of some day of the range, with
    the tag of its query. *)
Definition has_origin (net : network) (r : article) : Prop :=
  exists d a,
    In d all_days
    /\ ((In a (fetched net COMPANY_QUERY d) /\ r = set_category "company" a)
        \/ (In a (fetched net SECTOR_QUERY d) /\ r = set_category "sector" a)).

(** No string occurs twice in [l]. *)
Fixpoint distinct (l : list string) : bool :=
  match l with
  | [] => true
  | k :: l' => negb (existsb (String.eqb k) l') && distinct l'
  end.

(** The guarded block of the fetcher from the decoded body [data] on. *)
Definition scan_body (data : pyval) : M (list article) :=
  present <- py_contains "articles" data ;;
  if negb present then ret [] else
  arts <- py_getitem data "articles" ;;
  items <- py_iter arts ;;
  for_each fetch_one items [].

(** ** Further sample data *)

Definition sample_items : list pyval :=
  [ sample_article "RBI holds repo rate" "https://example.org/b" "20230428T101500Z";
    sample_article "HDFC Bank profit rises" "https://example.org/a" "20230428T080000Z";
    sample_article "Local weather turns cold" "https://example.org/c" "20230428T090000Z" ].

(** A provider whose array holds a number after a valid record. *)
Definition broken_net : network :=
  fun q d e =>
    Answered (sample_response
      [ sample_article "HDFC Bank profit rises" "https://example.org/a" "20230428T080000Z";
        PyInt 5 ]).

(** * Properties *)

(** ** The embedding at work *)

Example lower_ex : Str.lower "HDFC Bank: Q1 Results" = "hdfc bank: q1 results".
Proof. reflexivity. Qed.

Example findall_words_ex :
  Str.findall_words "a_b c-d  rbi's 2x" = ["a_b"; "c"; "d"; "rbi"; "s"; "2x"].
Proof. reflexivity. Qed.

(** U+00E9 and U+00B2 are word characters, U+00D7 is not. *)
Example findall_words_latin1_ex :
  Str.findall_words
    (String (ascii_of_N 233) (String (ascii_of_N 178)
       (String (ascii_of_N 215) (String "x" EmptyString))))
  = [String (ascii_of_N 233) (String (ascii_of_N 178) EmptyString); "x"].
Proof. reflexivity. Qed.

Example keyword_filter_ex :
  search KEYWORD_PATTERN "HDFC Bank reports record profit" = true
  /\ search KEYWORD_PATTERN "Local weather turns cold" = false
  /\ search KEYWORD_PATTERN "Banks rally" = true.
Proof. vm_compute. repeat split. Qed.

Example compute_relevance_ex :
  compute_relevance (PyStr "HDFC Bank reports record profit") = 3
  /\ compute_relevance (PyStr "hdfc bank") = 2
  /\ compute_relevance (PyStr "Banks rally") = 0
  /\ compute_relevance (PyStr "Repo rate and interest rate") = 0.
Proof. vm_compute. repeat split. Qed.

Example sorted_by_score_desc_ex :
  map (fun a => (relevance_score a, title a))
    (sorted_by_score_desc
       (map (fun p => {| date := PyNone; title := snd p; url := PyNone;
                         domain := PyNone; language := PyNone;
                         source_country := PyNone; relevance_score := fst p;
                         category := None |})
          [(1, "a"); (3, "b"); (1, "c"); (3, "d"); (2, "e")]))
  = [(3, "b"); (3, "d"); (2, "e"); (1, "a"); (1, "c")].
Proof. reflexivity. Qed.

(** The keywords that can be tokens: those without a blank. *)
Example single_word_keywords_ex :
  single_word_keywords
  =
    [ "hdfc"; "bank"; "banking"; "deposits"; "lending"; "nbfc";
      "branch"; "credit"; "loan"; "stock"; "share"; "equity"; "nse";
      "bse"; "ipo"; "dividend"; "valuation"; "investor"; "investment";
      "portfolio"; "profit"; "revenue"; "earnings"; "rbi"; "liquidity";
      "npas"; "crr"; "slr"; "regulatory"; "merger"; "acquisition" ]
  /\ (length single_word_keywords + length multi_word_keywords
      = length FINANCE_KEYWORDS)%nat.
Proof. split; reflexivity. Qed.

(** ** Strings and tokens *)

Lemma str_app_nil (b : string) : (EmptyString ++ b)%string = b.
Proof. reflexivity. Qed.

Lemma str_app_cons (x : ascii) (a b : string) :
  (String x a ++ b)%string = String x (a ++ b)%string.
Proof. reflexivity. Qed.

Lemma string_app_assoc (a b c : string) : ((a ++ b) ++ c = a ++ (b ++ c))%string.
Proof.
  induction a as [|x a IH]; [reflexivity |].
  now rewrite !str_app_cons, IH.
Qed.

Lemma starts_with_refl_app (r s : string) : Str.starts_with r (r ++ s)%string = true.
Proof.
  induction r as [|x r IH]; [reflexivity |].
  rewrite str_app_cons. simpl. now rewrite Ascii.eqb_refl, IH.
Qed.

Lemma contains_app_r (t r s : string) :
  Str.contains t s = true -> Str.contains t (r ++ s)%string = true.
Proof.
  intros H. induction r as [|x r IH]; [exact H |].
  rewrite str_app_cons. simpl. rewrite IH. apply orb_true_r.
Qed.

Lemma contains_prefix (r s : string) : Str.contains r (r ++ s)%string = true.
Proof.
  pose proof (starts_with_refl_app r s) as H.
  destruct (r ++ s)%string; simpl; now rewrite H.
Qed.

Lemma in_flush (t run : string) : In t (Str.flush run) -> t = run /\ run <> EmptyString.
Proof.
  destruct run; simpl; [tauto |].
  intros [H | []]. split; [now symmetry | discriminate].
Qed.

(** Every token is a piece of the scanned text. *)
Lemma scan_words_contains (s run t : string) :
  In t (Str.scan_words run s) -> Str.contains t (run ++ s)%string = true.
Proof.
  revert run. induction s as [|c s IH]; intros run; simpl.
  - intros H. apply in_flush in H as [-> _]. apply contains_prefix.
  - destruct (Str.is_word_char c).
    + intros H. apply IH in H.
      now rewrite string_app_assoc, str_app_cons, str_app_nil in H.
    + intros H. apply in_app_or in H as [H | H].
      * apply in_flush in H as [-> _]. apply contains_prefix.
      * apply (IH EmptyString) in H. rewrite str_app_nil in H.
        apply contains_app_r. simpl. rewrite H. apply orb_true_r.
Qed.

Lemma all_word_app (a b : string) :
  all_word (a ++ b)%string = all_word a && all_word b.
Proof.
  induction a as [|x a IH]; [reflexivity |].
  rewrite str_app_cons. simpl. now rewrite IH, andb_assoc.
Qed.

(** Every token consists of word characters only. *)
Lemma scan_words_all_word (s run t : string) :
  all_word run = true -> In t (Str.scan_words run s) -> all_word t = true.
Proof.
  revert run. induction s as [|c s IH]; intros run Hrun; simpl.
  - intros H. now apply in_flush in H as [-> _].
  - destruct (Str.is_word_char c) eqn:Hc.
    + apply IH. rewrite all_word_app, Hrun. simpl. now rewrite Hc.
    + intros H. apply in_app_or in H as [H | H].
      * now apply in_flush in H as [-> _].
      * now apply (IH EmptyString).
Qed.

Lemma all_word_no_space (t : string) : all_word t = true -> Str.has_space t = false.
Proof.
  unfold Str.has_space.
  induction t as [|c t IH]; [reflexivity |].
  cbn [all_word Str.contains Str.starts_with].
  intros H. apply andb_prop in H as [Hc Ht].
  rewrite (IH Ht), orb_false_r, andb_true_r.
  destruct (Ascii.eqb_spec " "%char c) as [<- | _]; [discriminate Hc | reflexivity].
Qed.

Lemma token_no_space (s t : string) :
  In t (Str.findall_words s) -> Str.has_space t = false.
Proof.
  intros H. apply all_word_no_space.
  now apply (scan_words_all_word s EmptyString).
Qed.

(** A caseless literal matches wherever its lower-case form starts the
    lower-cased text. *)
Lemma match_literal_ic_lower (p s : string) :
  Str.starts_with (Str.lower p) (Str.lower s) = true ->
  Str.match_literal_ic p s = true.
Proof.
  revert s. induction p as [|a p IH]; intros [|b s]; simpl; try easy.
  intros H. apply andb_prop in H as [Hab Hps].
  now rewrite Hab, (IH s Hps).
Qed.

Lemma search_here (p : pattern) (s : string) :
  match_here p s = true -> search p s = true.
Proof. intros H. destruct s; simpl; now rewrite H. Qed.

Lemma search_lower_contains (p : pattern) (k s : string) :
  In k (alternatives p) ->
  Str.contains (Str.lower k) (Str.lower s) = true ->
  search p s = true.
Proof.
  intros Hk. induction s as [|c s IH]; simpl; intros H.
  - rewrite orb_false_r in H |- *.
    apply existsb_exists. exists k. split; [exact Hk |].
    now apply match_literal_ic_lower.
  - apply orb_prop in H as [H | H].
    + apply orb_true_intro. left.
      apply existsb_exists. exists k. split; [exact Hk |].
      now apply (match_literal_ic_lower k (String c s)).
    + rewrite (IH H). apply orb_true_r.
Qed.

(** ** The frequency table *)

Lemma frequency_nonneg (k : string) (ws : list string) : 0 <= frequency k ws.
Proof. unfold frequency. lia. Qed.

Lemma frequency_cons (k w : string) (ws : list string) :
  frequency k (w :: ws) = (if String.eqb k w then 1 else 0) + frequency k ws.
Proof.
  unfold frequency. simpl. destruct (String.eqb k w); simpl length; lia.
Qed.

Lemma counter_fold_get (ws : list string) (m : gmap string Z) (k : string) :
  default 0 (foldl (fun m w => <[ w := default 0 (m !! w) + 1 ]> m) m ws !! k)
  = default 0 (m !! k) + frequency k ws.
Proof.
  revert m. induction ws as [|w ws IH]; intros m; simpl.
  - unfold frequency. simpl. lia.
  - rewrite IH, frequency_cons.
    destruct (String.eqb k w) eqn:E.
    + apply String.eqb_eq in E. subst w. rewrite lookup_insert_eq. simpl. lia.
    + apply String.eqb_neq in E. rewrite lookup_insert_ne by congruence. lia.
Qed.

(** [counts.get(k, 0)] is the number of occurrences of [k]. *)
Lemma counter_get_frequency (ws : list string) (k : string) :
  counter_get (Counter ws) k 0 = frequency k ws.
Proof.
  unfold counter_get, Counter. rewrite counter_fold_get, lookup_empty. simpl. lia.
Qed.

Lemma frequency_pos_in (k : string) (ws : list string) :
  1 <= frequency k ws -> In k ws.
Proof.
  induction ws as [|w ws IH]; [unfold frequency; simpl; lia |].
  rewrite frequency_cons. destruct (String.eqb k w) eqn:E.
  - apply String.eqb_eq in E. subst w. intros _. now left.
  - intros H. right. apply IH. lia.
Qed.

Lemma frequency_not_in (k : string) (ws : list string) :
  ~ In k ws -> frequency k ws = 0.
Proof.
  intros H. pose proof (frequency_nonneg k ws).
  destruct (Z.eq_dec (frequency k ws) 0) as [E | E]; [exact E |].
  exfalso. apply H, frequency_pos_in. lia.
Qed.

Lemma py_sum_from (l : list Z) (a : Z) : foldl Z.add a l = a + sum_Z l.
Proof.
  revert a. induction l as [|x l IH]; intros a; simpl; [lia |].
  rewrite IH. lia.
Qed.

Lemma py_sum_sum_Z (l : list Z) : py_sum l = sum_Z l.
Proof. unfold py_sum. rewrite py_sum_from. lia. Qed.

(** The score of a string, keyword by keyword. *)
Lemma compute_relevance_str (s : string) :
  compute_relevance (PyStr s)
  = sum_Z (map (fun k => frequency (Str.lower k) (Str.findall_words (Str.lower s)))
             FINANCE_KEYWORDS).
Proof.
  unfold compute_relevance. rewrite py_sum_sum_Z. f_equal.
  apply map_ext. intros k. apply counter_get_frequency.
Qed.

Lemma sum_Z_cons (x : Z) (l : list Z) : sum_Z (x :: l) = x + sum_Z l.
Proof. reflexivity. Qed.

Lemma sum_Z_nonneg (l : list Z) : Forall (fun x => 0 <= x) l -> 0 <= sum_Z l.
Proof. induction 1; simpl; lia. Qed.

Lemma sum_Z_pos_exists (l : list Z) :
  Forall (fun x => 0 <= x) l -> 1 <= sum_Z l -> exists x, In x l /\ 1 <= x.
Proof.
  induction 1 as [|x l Hx Hl IH]; simpl; [lia |].
  intros H. destruct (Z_le_gt_dec 1 x) as [Hx1 | Hx1].
  - exists x. auto.
  - destruct IH as [y [Hy Hy1]]; [lia |]. exists y. auto.
Qed.

Lemma keywords_lower_case : Forall (fun k => Str.lower k = k) FINANCE_KEYWORDS.
Proof. repeat constructor. Qed.

(** A keyword with a blank is never a token. *)
Lemma frequency_spaced (k s : string) :
  Str.has_space k = true -> frequency k (Str.findall_words s) = 0.
Proof.
  intros Hk. apply frequency_not_in. intros Hin.
  apply token_no_space in Hin. congruence.
Qed.

Lemma sum_over_single_words (s : string) (l : list string) :
  Forall (fun k => Str.lower k = k) l ->
  sum_Z (map (fun k => frequency (Str.lower k) (Str.findall_words s)) l)
  = sum_Z (map (fun k => frequency k (Str.findall_words s))
             (List.filter (fun k => negb (Str.has_space k)) l)).
Proof.
  induction 1 as [|k l Hk Hl IH]; [reflexivity |].
  simpl map. simpl List.filter. rewrite sum_Z_cons, IH, Hk.
  destruct (Str.has_space k) eqn:E; simpl negb; cbv iota.
  - rewrite (frequency_spaced k s E). lia.
  - simpl map. now rewrite sum_Z_cons.
Qed.

(** ** Relevance Scorer and Keyword Filter *)

Lemma compute_relevance_nonneg (v : pyval) : 0 <= compute_relevance v.
Proof.
  destruct v as [| b | z | f | s | l | d]; try (simpl; lia).
  rewrite compute_relevance_str. apply sum_Z_nonneg.
  apply Forall_map, List.Forall_forall. intros k _. apply frequency_nonneg.
Qed.

(** C8. The scorer is defined on every Python value and never negative; on
    a value that is not a [str] ([None], a bool, a number, a list, a dict)
    it is 0. *)
Theorem compute_relevance_total_nonneg :
  (forall v : pyval, 0 <= compute_relevance v)
  /\ compute_relevance PyNone = 0
  /\ (forall b, compute_relevance (PyBool b) = 0)
  /\ (forall z, compute_relevance (PyInt z) = 0)
  /\ (forall f, compute_relevance (PyFloat f) = 0)
  /\ (forall l, compute_relevance (PyList l) = 0)
  /\ (forall d, compute_relevance (PyDict d) = 0).
Proof.
  split; [exact compute_relevance_nonneg | now repeat split].
Qed.

(** C7. The score of a text is the sum, over the keywords without a blank,
    of the keyword's frequency among the tokens of the lower-cased text;
    the table lookup of each keyword with a blank yields 0. *)
Theorem compute_relevance_single_words (t : string) :
  compute_relevance (PyStr t)
  = sum_Z (map (fun k => frequency k (Str.findall_words (Str.lower t)))
             single_word_keywords)
  /\ Forall (fun k =>
       counter_get (Counter (Str.findall_words (Str.lower t))) (Str.lower k) 0 = 0)
       multi_word_keywords.
Proof.
  split.
  - rewrite compute_relevance_str. unfold single_word_keywords.
    apply sum_over_single_words, keywords_lower_case.
  - unfold multi_word_keywords.
    apply List.Forall_forall. intros k Hk.
    apply filter_In in Hk as [Hin Hsp].
    assert (Hlow : Str.lower k = k).
    { exact (proj1 (List.Forall_forall _ _) keywords_lower_case k Hin). }
    rewrite Hlow, counter_get_frequency. exact (frequency_spaced k _ Hsp).
Qed.

(** C6. A title with a score of at least 1 passes the keyword filter, and
    the filter accepts a title whose score is 0. *)
Theorem keyword_filter_more_permissive :
  (forall T : string,
      1 <= compute_relevance (PyStr T) -> search KEYWORD_PATTERN T = true)
  /\ (search KEYWORD_PATTERN "interest rate" = true
      /\ compute_relevance (PyStr "interest rate") = 0).
Proof.
  split; [| now vm_compute].
  intros T H. rewrite compute_relevance_str in H.
  apply sum_Z_pos_exists in H.
  - destruct H as [x [Hx Hx1]].
    apply in_map_iff in Hx as [k [<- Hk]].
    apply frequency_pos_in, (scan_words_contains _ EmptyString) in Hx1.
    rewrite str_app_nil in Hx1.
    now apply (search_lower_contains KEYWORD_PATTERN k).
  - apply Forall_map, List.Forall_forall. intros k _. apply frequency_nonneg.
Qed.

Lemma keyword_filter_more_permissive_witness :
  search KEYWORD_PATTERN "HDFC Bank reports record profit" = true.
Proof.
  apply (proj1 keyword_filter_more_permissive).
  vm_compute. discriminate.
Defined.

(** ** Article Fetcher *)

#[local] Arguments compute_relevance : simpl never.
#[local] Arguments search : simpl never.

Lemma py_get_dict (d : list (string * pyval)) (k : string) (dflt : pyval) :
  exists v, py_get (PyDict d) k dflt = (Ok v, []).
Proof. unfold py_get. destruct (dict_lookup d k); eauto. Qed.

(** One turn of the loop over the provider's records either leaves the
    list as it is, or raises, or appends one record whose title passed the
    filter and whose score is at least 1; it writes nothing to the log. *)
Lemma fetch_one_cases (acc : list article) (a : pyval) :
  fetch_one acc a = (Ok acc, [])
  \/ (exists e, fetch_one acc a = (Raise e, []))
  \/ (exists r, fetch_one acc a = (Ok (acc ++ [r]), [])
        /\ 1 <= relevance_score r
        /\ relevance_score r = compute_relevance (PyStr (title r))
        /\ search KEYWORD_PATTERN (title r) = true
        /\ category r = None).
Proof.
  unfold fetch_one.
  destruct a as [| b | z | f | s | l | d];
    try (right; left; exists AttributeError; reflexivity).
  destruct (py_get_dict d "title" (PyStr "")) as [tv ->].
  cbn [bind]. destruct (truthy tv) eqn:Htruthy; cbn [negb].
  2:{ left. reflexivity. }
  destruct tv as [| b | z | f | s | l | d'];
    try (right; left; exists TypeError; reflexivity).
  cbn [pattern_search bind ret].
  destruct (search KEYWORD_PATTERN s) eqn:Hsearch; cbn [negb].
  2:{ left. reflexivity. }
  destruct (compute_relevance (PyStr s) =? 0) eqn:Hscore.
  { left. reflexivity. }
  destruct (py_get_dict d "seendate" PyNone) as [v1 ->].
  destruct (py_get_dict d "url" PyNone) as [v2 ->].
  destruct (py_get_dict d "domain" PyNone) as [v3 ->].
  destruct (py_get_dict d "language" PyNone) as [v4 ->].
  destruct (py_get_dict d "sourcecountry" PyNone) as [v5 ->].
  right; right. eexists. split; [reflexivity |]. cbn.
  apply Z.eqb_neq in Hscore.
  pose proof (compute_relevance_nonneg (PyStr s)).
  repeat split; try assumption; lia.
Qed.

Lemma requested_app (w1 w2 : list event) :
  requested (w1 ++ w2) = requested w1 ++ requested w2.
Proof. apply flat_map_app. Qed.

Lemma requested_get (q : query) (d e : day) (w : list event) :
  requested (Get q d e :: w) = (q, d) :: requested w.
Proof. reflexivity. Qed.

Lemma for_each_fetch_one (items : list pyval) (acc : list article) :
  Forall retained acc ->
  exists res, for_each fetch_one items acc = (res, [])
    /\ match res with Ok l => Forall retained l | Raise _ => True end.
Proof.
  revert acc. induction items as [|a items IH]; intros acc Hacc; simpl.
  - exists (Ok acc). now split.
  - destruct (fetch_one_cases acc a) as [-> | [[e ->] | [r [-> Hr]]]]; cbn [bind].
    + destruct (IH acc Hacc) as [res [-> Hres]]. now exists res.
    + now exists (Raise e).
    + destruct (IH (acc ++ [r])) as [res [-> Hres]].
      * apply Forall_app. split; [exact Hacc |]. now repeat constructor.
      * now exists res.
Qed.

(** The guarded part of the fetcher: one network call, then only the
    status warning can be printed; a list it returns holds retained
    records only. *)
Lemma fetch_body_cases (net : network) (q : query) (d e : day) :
  exists res w, fetch_body net q d e = (res, Get q d e :: w)
    /\ Forall (fun ev => fetch_event ev = true) w
    /\ requested w = []
    /\ match res with Ok l => Forall retained l | Raise _ => True end.
Proof.
  unfold fetch_body, requests_get.
  destruct (net q d e) as [| r]; cbn [bind emit raise ret app].
  { exists (Raise RequestException), []. now repeat split. }
  destruct (status_code r =? 200); cbn [negb print emit bind ret app].
  2:{ eexists (Ok []), [_]. split; [reflexivity |]. now repeat constructor. }
  unfold response_json. destruct (json r) as [data |]; cbn [bind raise ret app].
  2:{ exists (Raise JSONDecodeError), []. now repeat split. }
  assert (Hraise : forall x : exn, exists res w,
             (Raise x : result (list article), [Get q d e]) = (res, Get q d e :: w)
             /\ Forall (fun ev => fetch_event ev = true) w
             /\ requested w = []
             /\ match res with Ok l => Forall retained l | Raise _ => True end).
  { intros x. exists (Raise x), []. now repeat split. }
  assert (Hnil : exists res w,
             (Ok [] : result (list article), [Get q d e]) = (res, Get q d e :: w)
             /\ Forall (fun ev => fetch_event ev = true) w
             /\ requested w = []
             /\ match res with Ok l => Forall retained l | Raise _ => True end).
  { exists (Ok []), []. now repeat split. }
  destruct data as [| b | z | f | s | l | dict];
    cbn [py_contains bind raise ret app negb]; try apply Hraise.
  - destruct (Str.contains "articles" s); cbn [negb py_getitem bind raise ret app];
      [apply Hraise | apply Hnil].
  - destruct (existsb (is_str "articles") l); cbn [negb py_getitem bind raise ret app];
      [apply Hraise | apply Hnil].
  - unfold py_getitem.
    destruct (dict_lookup dict "articles") as [arts |];
      cbn [negb bind raise ret app]; [| apply Hnil].
    destruct arts as [| b | z | f | s | l | dict'];
      cbn [py_iter bind raise ret app]; try apply Hraise.
    all: match goal with
         | |- context [for_each fetch_one ?items []] =>
             destruct (for_each_fetch_one items []) as [res [-> Hres]];
               [constructor |]
         end.
    all: exists res, []; now repeat split.
Qed.

(** The fetcher always returns a list; it makes exactly one network call. *)
Lemma fetch_news_from_gdelt_returns (net : network) (q : query) (d e : day) :
  exists l w, fetch_news_from_gdelt net q d e = (Ok l, w)
    /\ Forall retained l
    /\ Forall (fun ev => fetch_event ev = true) w
    /\ requested w = [(q, d)].
Proof.
  unfold fetch_news_from_gdelt.
  destruct (fetch_body_cases net q d e) as [res [w [-> [Hw [Hreq Hres]]]]].
  destruct res as [l | x]; cbn [try_except print emit bind ret app].
  - exists l, (Get q d e :: w). repeat split; try assumption.
    + constructor; [reflexivity | exact Hw].
    + now rewrite requested_get, Hreq.
  - eexists [], _. split; [reflexivity |]. repeat split.
    + constructor.
    + constructor; [reflexivity |]. apply Forall_app. split; [exact Hw |].
      now repeat constructor.
    + rewrite requested_get, requested_app, Hreq. reflexivity.
Qed.

(** ** The stable sort *)

Section StableSort.

Context {A : Type} (before : A -> A -> bool).

Let R (x y : A) : Prop := before x y = true.

Lemma insert_by_perm (x : A) (l : list A) : Permutation (insert_by before x l) (x :: l).
Proof.
  induction l as [|y l IH]; simpl; [reflexivity |].
  destruct (before x y); [reflexivity |].
  rewrite IH. apply perm_swap.
Qed.

Lemma stable_sort_perm (l : list A) : Permutation (stable_sort before l) l.
Proof.
  induction l as [|x l IH]; simpl; [reflexivity |].
  rewrite insert_by_perm. now apply perm_skip.
Qed.

(** Sortedness, for elements of a domain [D] on which [before] is total
    and transitive. *)
Context (D : A -> Prop).
Hypothesis before_total : forall x y, D x -> D y -> R x y \/ R y x.
Hypothesis before_trans : forall x y z, D x -> D y -> D z -> R x y -> R y z -> R x z.

Lemma insert_by_sorted (x : A) (l : list A) :
  D x -> Forall D l ->
  StronglySorted R l -> StronglySorted R (insert_by before x l).
Proof.
  intros Dx Dl Hs. induction Hs as [|y l Hs IH Hy]; simpl.
  - repeat constructor.
  - apply Forall_cons_iff in Dl as [Dy Dl].
    destruct (before x y) eqn:Hxy.
    + constructor; [now constructor |].
      constructor; [exact Hxy |].
      rewrite List.Forall_forall in Hy, Dl |- *. intros z Hz.
      apply (before_trans x y z); auto.
    + constructor; [now apply IH |].
      rewrite List.Forall_forall in Hy, Dl |- *. intros z Hz.
      apply (Permutation_in _ (insert_by_perm x l)) in Hz as [<- | Hz].
      * destruct (before_total x y Dx Dy) as [H | H]; [unfold R in H; congruence | exact H].
      * now apply Hy.
Qed.

Lemma stable_sort_sorted (l : list A) :
  Forall D l -> StronglySorted R (stable_sort before l).
Proof.
  induction 1 as [|x l Dx Dl IH]; simpl; [constructor |].
  apply insert_by_sorted; [exact Dx | | exact IH].
  rewrite List.Forall_forall in Dl |- *. intros z Hz. apply Dl.
  now apply (Permutation_in _ (stable_sort_perm l)).
Qed.

End StableSort.

Section Stability.

Context {A : Type} (before : A -> A -> bool) (p : A -> bool).

(** Members of the class [p] may stand either way round. *)
Hypothesis tie : forall x y, p x = true -> p y = true -> before x y = true.

Lemma insert_by_stable (x : A) (l : list A) :
  List.filter p (insert_by before x l) = List.filter p (x :: l).
Proof.
  induction l as [|y l IH]; [reflexivity |].
  cbn [insert_by]. destruct (before x y) eqn:Hxy; [reflexivity |].
  cbn [List.filter] in IH |- *. rewrite IH.
  destruct (p x) eqn:Hx, (p y) eqn:Hy; try reflexivity.
  rewrite (tie x y Hx Hy) in Hxy. discriminate.
Qed.

(** The sort keeps the members of a class in their input order. *)
Lemma stable_sort_stable (l : list A) :
  List.filter p (stable_sort before l) = List.filter p l.
Proof.
  induction l as [|x l IH]; [reflexivity |].
  cbn [stable_sort]. rewrite insert_by_stable. cbn [List.filter]. now rewrite IH.
Qed.

End Stability.

(** Sorting a sorted list changes nothing: the rows come out as [ties]
    left them whenever that order is already sorted, so every sorted
    rearrangement of a table is what [sort_values_by_date] gives for
    some [ties]. *)
Lemma stable_sort_of_sorted {A : Type} (before : A -> A -> bool) (l : list A) :
  StronglySorted (fun x y => before x y = true) l -> stable_sort before l = l.
Proof.
  induction 1 as [|x l Hs IH Hx]; [reflexivity |].
  cbn [stable_sort]. rewrite IH.
  destruct Hx as [|y l' Hxy _]; [reflexivity |].
  cbn [insert_by]. now rewrite Hxy.
Qed.

Lemma sort_values_of_sorted (ties : rearrangement) (rows : list article) :
  StronglySorted (fun x y => date_before x y = true) (ties rows) ->
  sort_values_by_date ties rows = ties rows.
Proof. apply stable_sort_of_sorted. Qed.

Lemma strongly_sorted_app_cross {A : Type} (R : A -> A -> Prop) (a b : list A) :
  StronglySorted R (a ++ b) -> Forall (fun x => Forall (R x) b) a.
Proof.
  induction a as [|x a IH]; simpl; intros H; [constructor |].
  apply StronglySorted_inv in H as [Hs Hx].
  constructor; [| now apply IH].
  apply Forall_app in Hx. tauto.
Qed.

Lemma strongly_sorted_app_l {A : Type} (R : A -> A -> Prop) (a b : list A) :
  StronglySorted R (a ++ b) -> StronglySorted R a.
Proof.
  induction a as [|x a IH]; simpl; intros H; [constructor |].
  apply StronglySorted_inv in H as [Hs Hx].
  constructor; [now apply IH |].
  apply Forall_app in Hx. tauto.
Qed.

Lemma strongly_sorted_impl {A : Type} (R R' : A -> A -> Prop) (l : list A) :
  (forall x y, R x y -> R' x y) -> StronglySorted R l -> StronglySorted R' l.
Proof.
  intros HR. induction 1 as [|x l Hs IH Hx]; constructor; [exact IH |].
  eapply List.Forall_impl; [| exact Hx]. apply HR.
Qed.

(** ** Day Orchestrator *)

Lemma score_before_sorted (l : list article) :
  StronglySorted score_ge (sorted_by_score_desc l).
Proof.
  apply (strongly_sorted_impl (fun x y => score_before x y = true)).
  { intros x y. unfold score_ge, score_before. now rewrite Z.leb_le. }
  apply (stable_sort_sorted score_before (fun _ => True)).
  - intros x y _ _. unfold score_before. rewrite !Z.leb_le. lia.
  - intros x y z _ _ _. unfold score_before. rewrite !Z.leb_le. lia.
  - now apply List.Forall_forall.
Qed.

Lemma score_before_stable (v : Z) (l : list article) :
  List.filter (score_is v) (sorted_by_score_desc l) = List.filter (score_is v) l.
Proof.
  apply stable_sort_stable. intros x y Hx Hy.
  unfold score_is, score_before in *.
  apply Z.eqb_eq in Hx, Hy. apply Z.leb_le. lia.
Qed.

Lemma set_category_score (tag : string) (a : article) :
  relevance_score (set_category tag a) = relevance_score a.
Proof. reflexivity. Qed.

(** Tagging, sorting and cutting a fetched list yields its top selection. *)
Lemma top_selection_intro (tag : string) (n : nat) (F : list article) :
  top_selection tag n F
    (firstn n (sorted_by_score_desc (map (set_category tag) F))).
Proof.
  set (S := sorted_by_score_desc (map (set_category tag) F)).
  assert (Hperm : Permutation S (map (set_category tag) F))
    by apply stable_sort_perm.
  assert (Hsorted : StronglySorted score_ge (firstn n S ++ skipn n S)).
  { rewrite firstn_skipn. apply score_before_sorted. }
  repeat split.
  - rewrite length_firstn, (Permutation_length Hperm), length_map. reflexivity.
  - apply List.Forall_forall. intros a Ha.
    assert (HaS : In a S).
    { rewrite <- (firstn_skipn n S). apply in_or_app. now left. }
    apply (Permutation_in _ Hperm), in_map_iff in HaS.
    destruct HaS as [a0 [<- _]]. reflexivity.
  - now apply strongly_sorted_app_l in Hsorted.
  - exists (skipn n S). split.
    + rewrite firstn_skipn. now symmetry.
    + now apply strongly_sorted_app_cross.
  - intros v. exists (List.filter (score_is v) (skipn n S)).
    rewrite <- List.filter_app, firstn_skipn. symmetry. apply score_before_stable.
Qed.

Lemma fetch_event_loop_event (w : list event) :
  Forall (fun ev => fetch_event ev = true) w ->
  Forall (fun ev => loop_event ev = true) w.
Proof.
  apply List.Forall_impl. intros [q d e | [] | s | f rows]; simpl; congruence.
Qed.

Lemma requested_print (m : message) (w : list event) :
  requested (Print m :: w) = requested w.
Proof. reflexivity. Qed.

(** One turn of the loop: it appends the day's two selections, adds their
    sizes to the counters, advances the date by one day, and calls the
    network once per query. *)
Lemma day_body_run (net : network) (st : loop_state) :
  exists w,
    day_body net st
    = (Ok {| all_articles := all_articles st ++ day_articles net (current_date st);
             total_company := total_company st + len (day_company net (current_date st));
             total_sector := total_sector st + len (day_sector net (current_date st));
             current_date := current_date st + 1 |}, w)
    /\ Forall (fun ev => loop_event ev = true) w
    /\ requested w = day_requests (current_date st).
Proof.
  unfold day_body, day_articles, day_company, day_sector, fetched.
  destruct (fetch_news_from_gdelt_returns net COMPANY_QUERY (current_date st)
              (current_date st + 1)) as [lc [wc [-> [_ [Hwc Hrc]]]]].
  destruct (fetch_news_from_gdelt_returns net SECTOR_QUERY (current_date st)
              (current_date st + 1)) as [ls [ws [-> [_ [Hws Hrs]]]]].
  cbn [bind print emit ret app fst].
  eexists. split; [reflexivity |]. split.
  - constructor; [reflexivity |].
    apply Forall_app. split; [now apply fetch_event_loop_event |].
    constructor; [reflexivity |].
    apply Forall_app. split; [now apply fetch_event_loop_event |].
    now repeat constructor.
  - rewrite requested_print, requested_app, Hrc, requested_print, requested_app, Hrs.
    reflexivity.
Qed.

Lemma days_from_succ (d : day) (n : nat) :
  days_from d (S n) = d :: days_from (d + 1) n.
Proof.
  unfold days_from. cbn [seq map]. f_equal; [lia |].
  rewrite <- seq_shift, map_map. apply map_ext. intros i. lia.
Qed.

(** The loop as a whole: started [n] days before the end of the range
    with more than [n] turns allowed, it runs the body once per day and
    stops. *)
Lemma while_days_run (net : network) (n : nat) :
  forall (fuel : nat) (st : loop_state),
    current_date st + Z.of_nat n = END_DATE + 1 ->
    (n < fuel)%nat ->
    exists w,
      while_days fuel net st
      = Some (Ok {| all_articles :=
                      all_articles st
                      ++ accumulated_over net (days_from (current_date st) n);
                    total_company :=
                      total_company st
                      + sum_Z (map (fun d => len (day_company net d))
                                 (days_from (current_date st) n));
                    total_sector :=
                      total_sector st
                      + sum_Z (map (fun d => len (day_sector net d))
                                 (days_from (current_date st) n));
                    current_date := END_DATE + 1 |}, w)
      /\ Forall (fun ev => loop_event ev = true) w
      /\ requested w = flat_map day_requests (days_from (current_date st) n).
Proof.
  induction n as [|n IH]; intros [|fuel] st Hdate Hfuel; try lia.
  - exists []. cbn [while_days].
    replace (current_date st <=? END_DATE) with false by (symmetry; apply Z.leb_gt; lia).
    repeat split; [| constructor].
    destruct st as [acc tc ts cur]. cbn in *. unfold ret.
    rewrite app_nil_r, !Z.add_0_r. repeat f_equal. lia.
  - cbn [while_days].
    replace (current_date st <=? END_DATE) with true by (symmetry; apply Z.leb_le; lia).
    destruct (day_body_run net st) as [w1 [-> [Hw1 Hr1]]].
    match goal with
    | |- context [while_days fuel net ?st'] =>
        destruct (IH fuel st') as [w2 [-> [Hw2 Hr2]]]; cbn [current_date]; try lia
    end.
    exists (w1 ++ w2). rewrite days_from_succ. repeat split.
    + cbn [all_articles total_company total_sector current_date
           accumulated_over flat_map map].
      rewrite !sum_Z_cons, <- !app_assoc, !Z.add_assoc. reflexivity.
    + apply Forall_app. now split.
    + rewrite requested_app, Hr1, Hr2. reflexivity.
Qed.

(** With enough turns allowed, the result of the loop does not depend on
    the bound. *)
Lemma while_days_bound_irrelevant (net : network) (fuel1 fuel2 n : nat) :
  forall st : loop_state,
    current_date st + Z.of_nat n = END_DATE + 1 ->
    (n < fuel1)%nat -> (n < fuel2)%nat ->
    exists r w,
      while_days fuel1 net st = Some (r, w)
      /\ while_days fuel2 net st = Some (r, w).
Proof.
  revert fuel1 fuel2.
  induction n as [|n IH]; intros [|fuel1] [|fuel2] st Hdate H1 H2; try lia.
  - cbn [while_days].
    replace (current_date st <=? END_DATE) with false by (symmetry; apply Z.leb_gt; lia).
    eauto.
  - cbn [while_days].
    replace (current_date st <=? END_DATE) with true by (symmetry; apply Z.leb_le; lia).
    destruct (day_body net st) as [[st' | x] w1] eqn:E; [| eauto].
    destruct (day_body_run net st) as [w1' [E' _]].
    rewrite E in E'. injection E' as -> <-.
    match goal with
    | |- context [while_days fuel1 net ?s] =>
        destruct (IH fuel1 fuel2 s) as [r [w [-> ->]]]; cbn [current_date]; try lia
    end.
    eauto.
Qed.

Lemma range_length :
  START_DATE + Z.of_nat (Z.to_nat (END_DATE - START_DATE + 1)) = END_DATE + 1.
Proof. vm_compute. reflexivity. Qed.

Lemma loop_bound_enough : (Z.to_nat (END_DATE - START_DATE + 1) < loop_bound)%nat.
Proof. apply Nat.ltb_lt. vm_compute. reflexivity. Qed.

(** The loop of [main] ends in [final_state], having called the network
    once per query and day of the range, in order. *)
Lemma main_loop_run (net : network) :
  exists w,
    while_days loop_bound net initial_state = Some (Ok (final_state net), w)
    /\ Forall (fun ev => loop_event ev = true) w
    /\ requested w = flat_map day_requests all_days.
Proof.
  destruct (while_days_run net (Z.to_nat (END_DATE - START_DATE + 1))
              loop_bound initial_state range_length loop_bound_enough)
    as [w [Hrun [Hw Hreq]]].
  exists w. repeat split; [| exact Hw | exact Hreq].
  rewrite Hrun. reflexivity.
Qed.

Lemma some_pair_inj {A B : Type} (a c : A) (b d : B) :
  Some (a, b) = Some (c, d) -> a = c /\ b = d.
Proof. intros H. injection H as -> ->. now split. Qed.

(** The loop of [main] has one result. *)
Lemma loop_final_state (net : network) (st : loop_state) (w : list event) :
  while_days loop_bound net initial_state = Some (Ok st, w) ->
  st = final_state net.
Proof.
  intros H. destruct (main_loop_run net) as [w0 [H0 _]].
  rewrite H0 in H. apply some_pair_inj in H as [H _].
  injection H as <-. reflexivity.
Qed.

(** [main] is the loop followed by what [materialize] does with the state
    the loop ends in. *)
Lemma main_after_loop (ties : rearrangement) (net : network) :
  exists w,
    while_days loop_bound net initial_state = Some (Ok (final_state net), w)
    /\ main ties net
       = match materialize ties (final_state net) with
         | Some (r, w') => Some (r, w ++ w')
         | None => None
         end
    /\ Forall (fun ev => loop_event ev = true) w
    /\ requested w = flat_map day_requests all_days.
Proof.
  destruct (main_loop_run net) as [w [Hrun [Hw Hreq]]].
  exists w. repeat split; try assumption.
  unfold main, main_bounded. now rewrite Hrun.
Qed.

(** A larger bound changes nothing. *)
Lemma main_bounded_enough (ties : rearrangement) (net : network) (fuel : nat) :
  (loop_bound <= fuel)%nat -> main_bounded fuel ties net = main ties net.
Proof.
  intros Hfuel.
  assert (Hlt : (Z.to_nat (END_DATE - START_DATE + 1) < fuel)%nat).
  { pose proof loop_bound_enough. lia. }
  unfold main, main_bounded.
  destruct (while_days_bound_irrelevant net fuel loop_bound
              (Z.to_nat (END_DATE - START_DATE + 1)) initial_state
              range_length Hlt loop_bound_enough) as [r [w [E1 E2]]].
  now rewrite E1, E2.
Qed.

Lemma written_app (w1 w2 : list event) : written (w1 ++ w2) = written w1 ++ written w2.
Proof. apply flat_map_app. Qed.

Lemma printed_app (w1 w2 : list event) : printed (w1 ++ w2) = printed w1 ++ printed w2.
Proof. apply flat_map_app. Qed.

Lemma loop_events_written (w : list event) :
  Forall (fun ev => loop_event ev = true) w -> written w = [].
Proof.
  induction 1 as [|ev w Hev Hw IH]; [reflexivity |].
  destruct ev as [q d e | m | s | f rows]; try exact IH. discriminate Hev.
Qed.

(** ** Result Materializer: deduplication *)

Lemma cell_eqb_eq (a b : pyval) :
  textual a = true -> textual b = true -> (cell_eqb a b = true <-> a = b).
Proof.
  destruct a, b; simpl; try discriminate; intros _ _;
    try (split; [discriminate | congruence]); try tauto.
  rewrite String.eqb_eq. split; congruence.
Qed.

Lemma same_key_eq (a b : article) :
  textual (url a) = true -> textual (url b) = true ->
  (same_key a b = true <-> key a = key b).
Proof.
  intros Ha Hb. unfold same_key, key.
  rewrite andb_true_iff, String.eqb_eq, (cell_eqb_eq _ _ Ha Hb).
  split; [intros [-> ->]; reflexivity | intros [= -> ->]; auto].
Qed.

Lemma seen_key_spec (seen : list article) (r : article) :
  Forall (fun a => textual (url a) = true) seen ->
  textual (url r) = true ->
  (existsb (fun s => same_key s r) seen = true
   <-> exists s, In s seen /\ key s = key r).
Proof.
  intros Hseen Hr. rewrite existsb_exists. rewrite List.Forall_forall in Hseen.
  split; intros [s [Hs Hk]]; exists s; (split; [exact Hs |]);
    now apply (same_key_eq s r (Hseen s Hs) Hr).
Qed.

Section Dedup.

Let T (l : list article) : Prop := Forall (fun a => textual (url a) = true) l.

Lemma T_snoc (seen : list article) (x : article) :
  T seen -> textual (url x) = true -> T (seen ++ [x]).
Proof. intros Hs Hx. apply Forall_app. split; [exact Hs | now repeat constructor]. Qed.

(** A surviving row comes from the input and has none of the keys seen. *)
Lemma drop_duplicates_from_in (rows seen : list article) (r : article) :
  T seen -> T rows ->
  In r (drop_duplicates_from seen rows) ->
  In r rows /\ Forall (fun s => key s <> key r) seen.
Proof.
  revert seen. induction rows as [|x rows IH]; intros seen Hseen Hrows; simpl; [tauto |].
  apply Forall_cons_iff in Hrows as [Hx Hrows].
  destruct (existsb (fun s => same_key s x) seen) eqn:E.
  - intros H. apply (IH seen Hseen Hrows) in H as [H1 H2]. auto.
  - intros [<- | H].
    + split; [now left |].
      apply List.Forall_forall. intros s Hs Hk.
      assert (existsb (fun s => same_key s x) seen = true) as E'
        by (apply seen_key_spec; eauto).
      congruence.
    + apply (IH (seen ++ [x]) (T_snoc _ _ Hseen Hx) Hrows) in H as [H1 H2].
      apply Forall_app in H2 as [H2 _]. auto.
Qed.

Lemma drop_duplicates_from_nodup (rows seen : list article) :
  T seen -> T rows ->
  List.NoDup (map key (drop_duplicates_from seen rows)).
Proof.
  revert seen. induction rows as [|x rows IH]; intros seen Hseen Hrows; simpl;
    [constructor |].
  apply Forall_cons_iff in Hrows as [Hx Hrows].
  destruct (existsb (fun s => same_key s x) seen); [now apply IH |].
  simpl. constructor; [| apply IH; [now apply T_snoc | exact Hrows]].
  intros Hin. apply in_map_iff in Hin as [r [Hk Hr]].
  apply drop_duplicates_from_in in Hr as [_ Hr]; [| now apply T_snoc | exact Hrows].
  apply Forall_app in Hr as [_ Hr]. apply Forall_cons_iff in Hr as [Hr _]. congruence.
Qed.

Lemma drop_duplicates_from_first (rows seen : list article) (r : article) :
  T seen -> T rows ->
  In r (drop_duplicates_from seen rows) -> first_with_key rows r.
Proof.
  revert seen. induction rows as [|x rows IH]; intros seen Hseen Hrows; simpl; [tauto |].
  pose proof Hrows as Hrows0.
  apply Forall_cons_iff in Hrows as [Hx Hrows].
  destruct (existsb (fun s => same_key s x) seen) eqn:E.
  - intros H.
    destruct (IH seen Hseen Hrows H) as [pre [post [-> Hpre]]].
    exists (x :: pre), post. split; [reflexivity |].
    constructor; [| exact Hpre].
    apply seen_key_spec in E as [s [Hs Hk]]; [| exact Hseen | exact Hx].
    apply drop_duplicates_from_in in H as [_ H]; [| exact Hseen | exact Hrows].
    rewrite List.Forall_forall in H. specialize (H s Hs). congruence.
  - intros [<- | H].
    + exists [], rows. split; [reflexivity | constructor].
    + pose proof (T_snoc _ _ Hseen Hx) as Hseen'.
      destruct (IH (seen ++ [x]) Hseen' Hrows H) as [pre [post [-> Hpre]]].
      exists (x :: pre), post. split; [reflexivity |].
      constructor; [| exact Hpre].
      apply drop_duplicates_from_in in H as [_ H]; [| exact Hseen' | exact Hrows].
      apply Forall_app in H as [_ H]. now apply Forall_cons_iff in H as [H _].
Qed.

Lemma drop_duplicates_from_represented (rows seen : list article) (a : article) :
  T seen -> T rows -> In a rows ->
  represented seen a \/ represented (drop_duplicates_from seen rows) a.
Proof.
  revert seen. induction rows as [|x rows IH]; intros seen Hseen Hrows; simpl; [tauto |].
  apply Forall_cons_iff in Hrows as [Hx Hrows].
  destruct (existsb (fun s => same_key s x) seen) eqn:E.
  - intros [<- | H]; [| now apply IH].
    left. apply seen_key_spec in E; assumption.
  - intros [<- | H].
    + right. exists x. split; [now left | reflexivity].
    + destruct (IH (seen ++ [x]) (T_snoc _ _ Hseen Hx) Hrows H)
        as [[r [Hr Hk]] | [r [Hr Hk]]].
      * apply in_app_or in Hr as [Hr | [<- | []]].
        -- left. now exists r.
        -- right. exists x. split; [now left | exact Hk].
      * right. exists r. split; [now right | exact Hk].
Qed.

End Dedup.

Lemma drop_duplicates_from_length (rows seen : list article) :
  (length (drop_duplicates_from seen rows) <= length rows)%nat
  /\ (length (drop_duplicates_from seen rows) = length rows ->
      drop_duplicates_from seen rows = rows).
Proof.
  revert seen. induction rows as [|x rows IH]; intros seen; simpl; [auto |].
  destruct (existsb (fun s => same_key s x) seen).
  - destruct (IH seen) as [H1 _]. split; lia.
  - destruct (IH (seen ++ [x])) as [H1 H2]. simpl. split; [lia |].
    intros H. f_equal. apply H2. lia.
Qed.

(** ** Result Materializer: the table and the closing events *)

Lemma materialize_empty (ties : rearrangement) (st : loop_state) :
  all_articles st = [] ->
  materialize ties st = Some (Ok tt, [Print MsgNoArticles]).
Proof. intros E. unfold materialize. now rewrite E. Qed.

(** On a table the embedding covers, what follows the loop returns
    normally. *)
Lemma materialize_covered (ties : rearrangement) (st : loop_state) :
  covered (all_articles st) ->
  materialize ties st
  = Some (Ok tt, match all_articles st with
                 | [] => [Print MsgNoArticles]
                 | _ :: _ => closing_events ties st
                 end).
Proof.
  intros [Hu Hd]. unfold materialize, closing_events, table, DataFrame.
  rewrite Hu, Hd. now destruct (all_articles st).
Qed.

(** With a covered accumulator [main] returns normally: its log is the
    loop's log followed by the closing events. *)
Lemma main_outcome (ties : rearrangement) (net : network) :
  covered (accumulated net) ->
  exists w,
    while_days loop_bound net initial_state = Some (Ok (final_state net), w)
    /\ main ties net
       = Some (Ok tt, w ++ match accumulated net with
                           | [] => [Print MsgNoArticles]
                           | _ :: _ => closing_events ties (final_state net)
                           end)
    /\ Forall (fun ev => loop_event ev = true) w
    /\ requested w = flat_map day_requests all_days.
Proof.
  intros Hcov.
  destruct (main_after_loop ties net) as [w [Hloop [Hmain [Hw Hreq]]]].
  exists w. repeat split; try assumption.
  rewrite Hmain, (materialize_covered ties (final_state net) Hcov). reflexivity.
Qed.

(** With an empty accumulator too, whatever the cells. *)
Lemma main_outcome_empty (ties : rearrangement) (net : network) :
  accumulated net = [] ->
  exists w,
    while_days loop_bound net initial_state = Some (Ok (final_state net), w)
    /\ main ties net = Some (Ok tt, w ++ [Print MsgNoArticles])
    /\ Forall (fun ev => loop_event ev = true) w.
Proof.
  intros Hacc.
  destruct (main_after_loop ties net) as [w [Hloop [Hmain [Hw Hreq]]]].
  exists w. repeat split; try assumption.
  rewrite Hmain, (materialize_empty ties (final_state net) Hacc). reflexivity.
Qed.

Lemma written_main (ties : rearrangement) (net : network) (w : list event) :
  Forall (fun ev => loop_event ev = true) w ->
  written (w ++ match accumulated net with
                | [] => [Print MsgNoArticles]
                | _ :: _ => closing_events ties (final_state net)
                end)
  = match accumulated net with
    | [] => []
    | _ :: _ => [(OUTPUT_FILE, table ties (accumulated net))]
    end.
Proof.
  intros Hw. rewrite written_app, (loop_events_written w Hw).
  destruct (accumulated net) eqn:E; [reflexivity |].
  unfold closing_events. change (all_articles (final_state net)) with (accumulated net).
  rewrite E. reflexivity.
Qed.

Lemma table_perm (ties : rearrangement) (acc : list article) :
  permutes ties -> Permutation (table ties acc) (drop_duplicates acc).
Proof.
  intros Hties. unfold table, sort_values_by_date.
  rewrite stable_sort_perm. apply Hties.
Qed.

Lemma drop_duplicates_in (acc : list article) (r : article) :
  In r (drop_duplicates acc) -> In r acc.
Proof.
  unfold drop_duplicates. generalize (@nil article).
  induction acc as [|x acc IH]; intros seen; simpl; [tauto |].
  destruct (existsb (fun s => same_key s x) seen); simpl.
  - intros H. right. now apply (IH seen).
  - intros [H | H]; [now left | right; now apply (IH (seen ++ [x]))].
Qed.

Lemma table_in (ties : rearrangement) (acc : list article) (r : article) :
  permutes ties -> In r (table ties acc) -> In r acc.
Proof.
  intros Hties H. apply drop_duplicates_in.
  now apply (Permutation_in _ (table_perm ties acc Hties)).
Qed.

Lemma forallb_Forall {A : Type} (f : A -> bool) (l : list A) :
  forallb f l = true -> Forall (fun a => f a = true) l.
Proof. intros H. apply List.Forall_forall. now apply forallb_forall. Qed.

(** ** Provenance of the accumulated records *)

Lemma fetched_retained (net : network) (q : query) (d : day) :
  Forall retained (fetched net q d).
Proof.
  unfold fetched.
  destruct (fetch_news_from_gdelt_returns net q d (d + 1)) as [l [w [-> [Hl _]]]].
  exact Hl.
Qed.

Lemma selection_scored (tag : string) (n : nat) (F : list article) :
  Forall retained F ->
  Forall scored (firstn n (sorted_by_score_desc (map (set_category tag) F))).
Proof.
  intros HF. apply List.Forall_forall. intros r Hr.
  assert (Hin : In r (sorted_by_score_desc (map (set_category tag) F))).
  { rewrite <- (firstn_skipn n). apply in_or_app. now left. }
  apply (Permutation_in _ (stable_sort_perm _ _)), in_map_iff in Hin.
  destruct Hin as [a [<- Ha]].
  rewrite List.Forall_forall in HF. destruct (HF a Ha) as [H1 [H2 _]].
  split; assumption.
Qed.

Lemma accumulated_over_scored (net : network) (ds : list day) :
  Forall scored (accumulated_over net ds).
Proof.
  unfold accumulated_over. induction ds as [|d ds IH]; simpl; [constructor |].
  unfold day_articles at 1. rewrite <- app_assoc.
  repeat (apply Forall_app; split); [| | exact IH];
    apply selection_scored, fetched_retained.
Qed.

Lemma totals_length (net : network) (ds : list day) :
  sum_Z (map (fun d => len (day_company net d)) ds)
  + sum_Z (map (fun d => len (day_sector net d)) ds)
  = len (accumulated_over net ds).
Proof.
  unfold accumulated_over, len.
  induction ds as [|d ds IH]; [reflexivity |].
  cbn [map flat_map]. rewrite !sum_Z_cons.
  unfold day_articles at 1. rewrite !length_app.
  unfold len in *. lia.
Qed.

(** ** The claims about the fetcher and the orchestrator *)

Lemma permutes_input_order : permutes input_order.
Proof. intros rows. reflexivity. Qed.

(** C2. Every record the Article Fetcher returns has a relevance score of
    at least 1; so has every record of the accumulator when the loop
    ends; and so has every row of the file [main] writes, where the score
    is still the one computed from the title. *)
Theorem retained_scores_positive (net : network) (q : query) (d e : day) :
  (exists l w,
      fetch_news_from_gdelt net q d e = (Ok l, w)
      /\ Forall (fun a => 1 <= relevance_score a) l)
  /\ (exists w st,
        while_days loop_bound net initial_state = Some (Ok st, w)
        /\ Forall scored (all_articles st))
  /\ (forall ties : rearrangement,
        permutes ties ->
        textual_urls (accumulated net) = true ->
        textual_dates (accumulated net) = true ->
        exists w,
          main ties net = Some (Ok tt, w)
          /\ written w = match accumulated net with
                         | [] => []
                         | _ :: _ => [(OUTPUT_FILE, table ties (accumulated net))]
                         end
          /\ Forall scored (table ties (accumulated net))).
Proof.
  split; [| split].
  - destruct (fetch_news_from_gdelt_returns net q d e) as [l [w [H [Hl _]]]].
    exists l, w. split; [exact H |].
    eapply List.Forall_impl; [| exact Hl]. now intros a [Ha _].
  - destruct (main_loop_run net) as [w [Hloop _]].
    exists w, (final_state net). split; [exact Hloop |].
    apply accumulated_over_scored.
  - intros ties Hties Hurls Hdates.
    destruct (main_outcome ties net (conj Hurls Hdates)) as [w [_ [Hmain [Hw _]]]].
    eexists. split; [exact Hmain |]. split; [now apply written_main |].
    apply List.Forall_forall. intros r Hr. apply (table_in ties _ _ Hties) in Hr.
    pose proof (accumulated_over_scored net all_days) as H.
    rewrite List.Forall_forall in H. now apply H.
Qed.

Lemma retained_scores_positive_witness :
  exists w,
    main input_order sample_net = Some (Ok tt, w)
    /\ written w = match accumulated sample_net with
                   | [] => []
                   | _ :: _ => [(OUTPUT_FILE, table input_order (accumulated sample_net))]
                   end
    /\ Forall scored (table input_order (accumulated sample_net)).
Proof.
  apply (proj2 (proj2 (retained_scores_positive sample_net COMPANY_QUERY
                         START_DATE (START_DATE + 1))) input_order).
  - intros rows. reflexivity.
  - vm_compute. reflexivity.
  - vm_compute. reflexivity.
Defined.

(** C3. In every turn of the loop the records appended to the accumulator
    are the first 15 of the day's company fetch, tagged company and sorted
    by descending score, followed by the first 30 of the day's sector
    fetch, tagged sector and sorted likewise.  Each part is the top
    selection of its fetch: 15 (30) records, or all when the fetch has
    fewer, in descending score order, leaving out only records that score
    no higher, with equal scores in fetch order.  The counters grow by the
    sizes of the two parts and the date advances by one day. *)
Theorem day_contribution (net : network) (st : loop_state) :
  exists Fc Fs wc ws w,
    fetch_news_from_gdelt net COMPANY_QUERY (current_date st) (current_date st + 1)
    = (Ok Fc, wc)
    /\ fetch_news_from_gdelt net SECTOR_QUERY (current_date st) (current_date st + 1)
       = (Ok Fs, ws)
    /\ let Lc := firstn 15 (sorted_by_score_desc (map (set_category "company") Fc)) in
       let Ls := firstn 30 (sorted_by_score_desc (map (set_category "sector") Fs)) in
       day_body net st
       = (Ok {| all_articles := all_articles st ++ (Lc ++ Ls);
                total_company := total_company st + len Lc;
                total_sector := total_sector st + len Ls;
                current_date := current_date st + 1 |}, w)
       /\ top_selection "company" 15 Fc Lc
       /\ top_selection "sector" 30 Fs Ls.
Proof.
  destruct (fetch_news_from_gdelt_returns net COMPANY_QUERY (current_date st)
              (current_date st + 1)) as [Fc [wc [Hc _]]].
  destruct (fetch_news_from_gdelt_returns net SECTOR_QUERY (current_date st)
              (current_date st + 1)) as [Fs [ws [Hs _]]].
  destruct (day_body_run net st) as [w [Hbody _]].
  exists Fc, Fs, wc, ws, w.
  split; [exact Hc |]. split; [exact Hs |]. cbn zeta.
  split; [| split; apply top_selection_intro].
  rewrite Hbody. unfold day_articles, day_company, day_sector, fetched.
  rewrite Hc, Hs. reflexivity.
Qed.

(** C4. The Article Fetcher returns a list whatever the network does: the
    empty list on a status other than 200, when the request or the decoding
    of the body raises (or anything else in the guarded block does), and
    when the decoded body has no "articles"; and the loop of [main] runs
    to its end, calling the network for both queries of every day of the
    range, whatever the answers. *)
Theorem fetcher_never_raises (net : network) (q : query) (d e : day) :
  (exists l w, fetch_news_from_gdelt net q d e = (Ok l, w))
  /\ (forall r, net q d e = Answered r -> status_code r <> 200 ->
        fetch_news_from_gdelt net q d e
        = (Ok [], [Get q d e;
                   Print (MsgHttpStatus (status_code r) d
                            (String.substring 0 100 (text r)))]))
  /\ (net q d e = Failed ->
        fetch_news_from_gdelt net q d e
        = (Ok [], [Get q d e; Print (MsgFetchError d RequestException)]))
  /\ (forall r, net q d e = Answered r -> status_code r = 200 -> json r = None ->
        fetch_news_from_gdelt net q d e
        = (Ok [], [Get q d e; Print (MsgFetchError d JSONDecodeError)]))
  /\ (forall x w, fetch_body net q d e = (Raise x, w) ->
        fetch_news_from_gdelt net q d e = (Ok [], w ++ [Print (MsgFetchError d x)]))
  /\ (forall r data, net q d e = Answered r -> status_code r = 200 ->
        json r = Some data -> py_contains "articles" data = (Ok false, []) ->
        fetch_news_from_gdelt net q d e = (Ok [], [Get q d e]))
  /\ (exists st w,
        while_days loop_bound net initial_state = Some (Ok st, w)
        /\ current_date st = END_DATE + 1
        /\ requested w = flat_map day_requests all_days).
Proof.
  split; [| split; [| split; [| split; [| split; [| split]]]]].
  - destruct (fetch_news_from_gdelt_returns net q d e) as [l [w [H _]]]. eauto.
  - intros r Hr Hstatus.
    unfold fetch_news_from_gdelt, fetch_body, requests_get. rewrite Hr.
    apply Z.eqb_neq in Hstatus. cbn [bind emit ret app]. rewrite Hstatus.
    reflexivity.
  - intros Hr. unfold fetch_news_from_gdelt, fetch_body, requests_get.
    rewrite Hr. reflexivity.
  - intros r Hr Hstatus Hjson.
    unfold fetch_news_from_gdelt, fetch_body, requests_get, response_json.
    rewrite Hr. cbn [bind emit ret app]. rewrite Hstatus, Hjson. reflexivity.
  - intros x w Hbody. unfold fetch_news_from_gdelt. rewrite Hbody. reflexivity.
  - intros r data Hr Hstatus Hjson Hcontains.
    unfold fetch_news_from_gdelt, fetch_body, requests_get, response_json.
    rewrite Hr. cbn [bind emit ret app]. rewrite Hstatus, Hjson.
    cbn [Z.eqb Pos.eqb negb bind ret app]. rewrite Hcontains. reflexivity.
  - destruct (main_loop_run net) as [w [Hloop [_ Hreq]]].
    exists (final_state net), w. repeat split; assumption.
Qed.

Lemma fetcher_never_raises_witness :
  fetch_news_from_gdelt sample_net SECTOR_QUERY (START_DATE + 1) (START_DATE + 2)
  = (Ok [], [Get SECTOR_QUERY (START_DATE + 1) (START_DATE + 2);
             Print (MsgHttpStatus 500 (START_DATE + 1) "Internal Server Error")])
  /\ fetch_news_from_gdelt sample_net COMPANY_QUERY END_DATE (END_DATE + 1)
     = (Ok [], [Get COMPANY_QUERY END_DATE (END_DATE + 1);
                Print (MsgFetchError END_DATE RequestException)]).
Proof.
  split.
  - apply (proj1 (proj2 (fetcher_never_raises sample_net SECTOR_QUERY
                           (START_DATE + 1) (START_DATE + 2))) server_error).
    + reflexivity.
    + discriminate.
  - apply (proj1 (proj2 (proj2 (fetcher_never_raises sample_net COMPANY_QUERY
                                  END_DATE (END_DATE + 1))))).
    reflexivity.
Defined.

(** ** Result Materializer: ordering *)

Lemma string_leb_trans (a b c : string) :
  String.leb a b = true -> String.leb b c = true -> String.leb a c = true.
Proof.
  intros H1 H2. apply Is_true_true.
  apply Is_true_true in H1, H2.
  exact (@transitivity _ String.le _ a b c H1 H2).
Qed.

Lemma cell_leb_total (a b : pyval) :
  textual a = true -> textual b = true ->
  cell_leb a b = true \/ cell_leb b a = true.
Proof.
  destruct a, b; simpl; try discriminate; intros _ _; auto.
  apply String.leb_total.
Qed.

Lemma cell_leb_trans (a b c : pyval) :
  textual a = true -> textual b = true -> textual c = true ->
  cell_leb a b = true -> cell_leb b c = true -> cell_leb a c = true.
Proof.
  destruct a, b, c; simpl; try discriminate; intros _ _ _; auto.
  apply string_leb_trans.
Qed.

Lemma cell_leb_date_order (a b : pyval) :
  textual a = true -> textual b = true -> cell_leb a b = true -> date_order a b.
Proof.
  destruct a, b; simpl; try discriminate; intros _ _ H; now constructor.
Qed.

Lemma forall_textual_perm (f : article -> pyval) (l l' : list article) :
  Permutation l' l ->
  Forall (fun a => textual (f a) = true) l ->
  Forall (fun a => textual (f a) = true) l'.
Proof.
  intros Hp Hl. rewrite List.Forall_forall in Hl |- *.
  intros r Hr. apply Hl. now apply (Permutation_in _ Hp).
Qed.

(** On textual dates the table is in non-decreasing date order, whatever
    the order of rows of equal date. *)
Lemma table_sorted (ties : rearrangement) (acc : list article) :
  permutes ties ->
  textual_dates acc = true ->
  StronglySorted (fun x y => date_order (date x) (date y)) (table ties acc).
Proof.
  intros Hties Hacc. apply forallb_Forall in Hacc.
  assert (Hdd : Forall (fun a => textual (date a) = true) (ties (drop_duplicates acc))).
  { apply (forall_textual_perm date _ _ (Hties _)).
    apply List.Forall_forall. intros r Hr.
    rewrite List.Forall_forall in Hacc. now apply Hacc, drop_duplicates_in. }
  assert (Hsorted : StronglySorted (fun x y => date_before x y = true) (table ties acc)).
  { apply (stable_sort_sorted date_before (fun a => textual (date a) = true)).
    - intros x y Hx Hy. now apply cell_leb_total.
    - intros x y z Hx Hy Hz. now apply cell_leb_trans.
    - exact Hdd. }
  assert (Htab : Forall (fun a => textual (date a) = true) (table ties acc)).
  { apply (forall_textual_perm date _ _ (stable_sort_perm date_before _)), Hdd. }
  clear Hdd Hacc. induction Hsorted as [|x l Hs IH Hx]; constructor.
  - apply IH. now apply Forall_cons_iff in Htab as [_ Htab].
  - apply Forall_cons_iff in Htab as [Htx Htl].
    rewrite List.Forall_forall in Hx, Htl |- *. intros y Hy.
    apply cell_leb_date_order; auto. now apply Hx.
Qed.

(** On textual urls the table keeps, for every key of the accumulator, the
    first record with that key and nothing else. *)
Lemma table_deduplicated (ties : rearrangement) (acc : list article) :
  permutes ties ->
  textual_urls acc = true ->
  List.NoDup (map key (table ties acc))
  /\ Forall (first_with_key acc) (table ties acc)
  /\ Forall (represented (table ties acc)) acc.
Proof.
  intros Hties Hacc. apply forallb_Forall in Hacc.
  pose proof (table_perm ties acc Hties) as Hperm.
  assert (Hnil : Forall (fun a => textual (url a) = true) (@nil article)) by constructor.
  split; [| split].
  - apply (Permutation_NoDup (Permutation_map key (Permutation_sym Hperm))).
    now apply drop_duplicates_from_nodup.
  - apply List.Forall_forall. intros r Hr.
    apply (Permutation_in _ Hperm) in Hr.
    now apply (drop_duplicates_from_first acc []).
  - apply List.Forall_forall. intros a Ha.
    destruct (drop_duplicates_from_represented acc [] a Hnil Hacc Ha)
      as [[r [[] _]] | [r [Hr Hk]]].
    exists r. split; [| exact Hk].
    now apply (Permutation_in _ (Permutation_sym Hperm)).
Qed.

(** C1. On a table the embedding covers, and whatever order the sort
    gives to rows of equal date: the rows written carry pairwise distinct
    (title, url) pairs; each row is the first record of the accumulator
    with its pair; and every pair of the accumulator is carried by some
    row. *)
Theorem final_output_deduplicated (ties : rearrangement) (net : network)
  (Hties : permutes ties)
  (Hurls : textual_urls (accumulated net) = true)
  (Hdates : textual_dates (accumulated net) = true) :
  exists w st,
    while_days loop_bound net initial_state = Some (Ok st, w)
    /\ all_articles st = accumulated net
    /\ main ties net
       = Some (Ok tt, w ++ match all_articles st with
                           | [] => [Print MsgNoArticles]
                           | _ :: _ => closing_events ties st
                           end)
    /\ written w = []
    /\ List.NoDup (map key (table ties (all_articles st)))
    /\ Forall (first_with_key (all_articles st)) (table ties (all_articles st))
    /\ Forall (represented (table ties (all_articles st))) (all_articles st).
Proof.
  destruct (main_outcome ties net (conj Hurls Hdates)) as [w [Hloop [Hmain [Hw _]]]].
  exists w, (final_state net).
  split; [exact Hloop |]. split; [reflexivity |]. split; [exact Hmain |].
  split; [now apply loop_events_written |].
  now apply table_deduplicated.
Qed.

Lemma final_output_deduplicated_witness :
  exists w st,
    while_days loop_bound sample_net initial_state = Some (Ok st, w)
    /\ all_articles st = accumulated sample_net
    /\ main input_order sample_net
       = Some (Ok tt, w ++ match all_articles st with
                           | [] => [Print MsgNoArticles]
                           | _ :: _ => closing_events input_order st
                           end)
    /\ written w = []
    /\ List.NoDup (map key (table input_order (all_articles st)))
    /\ Forall (first_with_key (all_articles st)) (table input_order (all_articles st))
    /\ Forall (represented (table input_order (all_articles st))) (all_articles st).
Proof.
  apply (final_output_deduplicated input_order sample_net).
  - intros rows. reflexivity.
  - vm_compute. reflexivity.
  - vm_compute. reflexivity.
Defined.

(** C5. On a table the embedding covers, and whatever order the sort
    gives to rows of equal date: the rows written are in non-decreasing
    order of the raw date field, strings comparing as strings, character
    by character (a missing date comes last). *)
Theorem final_output_sorted_by_date (ties : rearrangement) (net : network)
  (Hties : permutes ties)
  (Hurls : textual_urls (accumulated net) = true)
  (Hdates : textual_dates (accumulated net) = true) :
  exists w st,
    while_days loop_bound net initial_state = Some (Ok st, w)
    /\ all_articles st = accumulated net
    /\ main ties net
       = Some (Ok tt, w ++ match all_articles st with
                           | [] => [Print MsgNoArticles]
                           | _ :: _ => closing_events ties st
                           end)
    /\ written w = []
    /\ StronglySorted (fun x y => date_order (date x) (date y))
         (table ties (all_articles st))
    /\ Permutation (table ties (all_articles st)) (drop_duplicates (all_articles st)).
Proof.
  destruct (main_outcome ties net (conj Hurls Hdates)) as [w [Hloop [Hmain [Hw _]]]].
  exists w, (final_state net).
  split; [exact Hloop |]. split; [reflexivity |]. split; [exact Hmain |].
  split; [now apply loop_events_written |].
  split; [now apply table_sorted | now apply table_perm].
Qed.

Lemma final_output_sorted_by_date_witness :
  exists w st,
    while_days loop_bound sample_net initial_state = Some (Ok st, w)
    /\ all_articles st = accumulated sample_net
    /\ main input_order sample_net
       = Some (Ok tt, w ++ match all_articles st with
                           | [] => [Print MsgNoArticles]
                           | _ :: _ => closing_events input_order st
                           end)
    /\ written w = []
    /\ StronglySorted (fun x y => date_order (date x) (date y))
         (table input_order (all_articles st))
    /\ Permutation (table input_order (all_articles st))
         (drop_duplicates (all_articles st)).
Proof.
  apply (final_output_sorted_by_date input_order sample_net).
  - intros rows. reflexivity.
  - vm_compute. reflexivity.
  - vm_compute. reflexivity.
Defined.

(** ** The end of the run *)

(** C9. The loop always ends and writes no file.  With an empty
    accumulator [main] then returns normally, having printed the
    no-articles line and written nothing.  With a non-empty accumulator
    (of a table the embedding covers) it returns normally after writing
    the file once.  In any outcome a file is written only when the
    accumulator is not empty. *)
Theorem no_articles_no_file (ties : rearrangement) (net : network) :
  exists w st,
    while_days loop_bound net initial_state = Some (Ok st, w)
    /\ written w = []
    /\ (all_articles st = [] ->
        main ties net = Some (Ok tt, w ++ [Print MsgNoArticles]))
    /\ (all_articles st <> [] ->
        textual_urls (all_articles st) = true ->
        textual_dates (all_articles st) = true ->
        main ties net
        = Some (Ok tt,
                w ++ [ ToCsv OUTPUT_FILE (table ties (all_articles st));
                       Print MsgComplete;
                       Print (MsgSummary (len (table ties (all_articles st)))
                                (total_company st) (total_sector st));
                       Print (MsgFile OUTPUT_FILE) ]))
    /\ (forall r w', main ties net = Some (r, w') ->
        written w' <> [] -> all_articles st <> []).
Proof.
  destruct (main_after_loop ties net) as [w [Hloop [Hmain [Hw _]]]].
  exists w, (final_state net).
  split; [exact Hloop |]. split; [now apply loop_events_written |].
  split; [| split].
  - intros Hacc. rewrite Hmain, (materialize_empty ties _ Hacc). reflexivity.
  - intros Hacc Hurls Hdates.
    rewrite Hmain, (materialize_covered ties _ (conj Hurls Hdates)).
    unfold closing_events. now destruct (all_articles (final_state net)).
  - intros r w' Hr Hwritten Hacc.
    rewrite Hmain, (materialize_empty ties _ Hacc) in Hr.
    injection Hr as _ <-. apply Hwritten.
    rewrite written_app, (loop_events_written w Hw). reflexivity.
Qed.

Lemma no_articles_no_file_witness :
  exists w rows messages,
    main input_order sample_net
    = Some (Ok tt, w ++ ToCsv OUTPUT_FILE rows :: messages).
Proof.
  destruct (no_articles_no_file input_order sample_net)
    as [w [st [Hloop [_ [_ [Hfile _]]]]]].
  assert (Hst : all_articles st = accumulated sample_net).
  { rewrite (loop_final_state sample_net st w Hloop). reflexivity. }
  exists w. eexists _, _. apply Hfile; rewrite Hst.
  - vm_compute. discriminate.
  - vm_compute. reflexivity.
  - vm_compute. reflexivity.
Defined.

Lemma table_length (ties : rearrangement) (acc : list article) :
  permutes ties -> len (table ties acc) = len (drop_duplicates acc).
Proof.
  intros Hties. unfold len. now rewrite (Permutation_length (table_perm ties acc Hties)).
Qed.

(** C10. The two category counts add up to the length of the accumulator
    before deduplication.  In the summary [main] prints (for a table the
    embedding covers) they stand beside the number of rows saved, which is
    the length after deduplication: at most their sum, and less as soon as
    deduplication drops a record. *)
Theorem summary_counts_before_dedup (ties : rearrangement) (net : network) :
  exists w st,
    while_days loop_bound net initial_state = Some (Ok st, w)
    /\ Forall (fun ev => loop_event ev = true) w
    /\ total_company st + total_sector st = len (all_articles st)
    /\ (permutes ties ->
        all_articles st <> [] ->
        textual_urls (all_articles st) = true ->
        textual_dates (all_articles st) = true ->
        main ties net
        = Some (Ok tt,
                w ++ [ ToCsv OUTPUT_FILE (table ties (all_articles st));
                       Print MsgComplete;
                       Print (MsgSummary (len (table ties (all_articles st)))
                                (total_company st) (total_sector st));
                       Print (MsgFile OUTPUT_FILE) ])
        /\ len (table ties (all_articles st)) = len (drop_duplicates (all_articles st))
        /\ len (table ties (all_articles st)) <= total_company st + total_sector st
        /\ (len (table ties (all_articles st)) < total_company st + total_sector st
            <-> drop_duplicates (all_articles st) <> all_articles st)).
Proof.
  destruct (main_after_loop ties net) as [w [Hloop [Hmain [Hw _]]]].
  exists w, (final_state net).
  split; [exact Hloop |]. split; [exact Hw |].
  assert (Htot : total_company (final_state net) + total_sector (final_state net)
                 = len (all_articles (final_state net))) by apply totals_length.
  split; [exact Htot |].
  intros Hties Hacc Hurls Hdates.
  split.
  { rewrite Hmain, (materialize_covered ties _ (conj Hurls Hdates)).
    unfold closing_events. now destruct (all_articles (final_state net)). }
  destruct (drop_duplicates_from_length (all_articles (final_state net)) [])
    as [Hle Heq].
  fold (drop_duplicates (all_articles (final_state net))) in Hle, Heq.
  rewrite (table_length ties _ Hties), Htot. unfold len.
  split; [reflexivity |]. split; [lia |].
  split.
  - intros Hlt Hsame. rewrite Hsame in Hlt. lia.
  - intros Hne.
    destruct (Nat.eq_dec (length (drop_duplicates (all_articles (final_state net))))
                (length (all_articles (final_state net)))) as [E | E]; [| lia].
    now apply Heq in E.
Qed.

Lemma summary_counts_before_dedup_witness :
  exists w saved company sector,
    main input_order sample_net
    = Some (Ok tt,
            w ++ [ ToCsv OUTPUT_FILE (table input_order (accumulated sample_net));
                   Print MsgComplete;
                   Print (MsgSummary saved company sector);
                   Print (MsgFile OUTPUT_FILE) ])
    /\ saved < company + sector.
Proof.
  destruct (summary_counts_before_dedup input_order sample_net)
    as [w [st [Hloop [_ [_ Hsummary]]]]].
  assert (Hst : all_articles st = accumulated sample_net).
  { rewrite (loop_final_state sample_net st w Hloop). reflexivity. }
  rewrite Hst in Hsummary.
  destruct Hsummary as [Hmain [_ [_ Hlt]]].
  - intros rows. reflexivity.
  - vm_compute. discriminate.
  - vm_compute. reflexivity.
  - vm_compute. reflexivity.
  - exists w. eexists _, _, _. split; [exact Hmain |].
    apply Hlt. vm_compute. discriminate.
Defined.

(** The sample run: four records accumulated on the first day, two rows
    saved, in date order; the network is called twice a day for 915 days. *)
Example main_sample_run :
  option_map
    (fun rw => (fst rw,
                map (fun fr => map title (snd fr)) (written (snd rw)),
                List.filter is_summary (printed (snd rw)),
                length (requested (snd rw))))
    (main input_order sample_net)
  = Some (Ok tt,
          [["HDFC Bank profit rises"; "RBI holds repo rate"]],
          [MsgSummary 2 2 2],
          1830%nat).
Proof. vm_compute. reflexivity. Qed.

(** A table outside the embedding: a number as url.  [main] has no
    outcome there. *)
Example main_uncovered_run :
  main input_order
    (fun q d e =>
       if d =? START_DATE
       then Answered (sample_response
              [PyDict [("title", PyStr "bank x"); ("url", PyInt 5)]])
       else Failed)
  = None.
Proof. vm_compute. reflexivity. Qed.

(** * Further properties *)

(** ** The scorer and the filter on strings *)

Lemma lower_char_idem (c : ascii) : Str.lower_char (Str.lower_char c) = Str.lower_char c.
Proof. destruct c as [[] [] [] [] [] [] [] []]; reflexivity. Qed.

Lemma lower_char_word (c : ascii) :
  Str.is_word_char (Str.lower_char c) = Str.is_word_char c.
Proof. destruct c as [[] [] [] [] [] [] [] []]; reflexivity. Qed.

Lemma lower_idem (s : string) : Str.lower (Str.lower s) = Str.lower s.
Proof.
  induction s as [|c s IH]; [reflexivity |].
  cbn [Str.lower]. now rewrite lower_char_idem, IH.
Qed.

Lemma lower_app (a b : string) :
  Str.lower (a ++ b)%string = (Str.lower a ++ Str.lower b)%string.
Proof.
  induction a as [|c a IH]; [reflexivity |].
  rewrite str_app_cons. cbn [Str.lower]. now rewrite str_app_cons, IH.
Qed.

Lemma match_literal_ic_starts_with (p s : string) :
  Str.match_literal_ic p s = Str.starts_with (Str.lower p) (Str.lower s).
Proof.
  revert s. induction p as [|a p IH]; intros [|b s]; try reflexivity.
  cbn [Str.match_literal_ic Str.lower Str.starts_with]. now rewrite IH.
Qed.

Lemma existsb_orb {A : Type} (f g : A -> bool) (l : list A) :
  existsb (fun x => f x || g x) l = existsb f l || existsb g l.
Proof.
  induction l as [|x l IH]; [reflexivity |].
  cbn [existsb]. rewrite IH.
  destruct (f x), (g x), (existsb f l), (existsb g l); reflexivity.
Qed.

Lemma existsb_false {A : Type} (l : list A) : existsb (fun _ => false) l = false.
Proof. induction l; [reflexivity | assumption]. Qed.

Lemma existsb_ext_in {A : Type} (f g : A -> bool) (l : list A) :
  Forall (fun x => f x = g x) l -> existsb f l = existsb g l.
Proof. induction 1 as [|x l Hx Hl IH]; [reflexivity |]. cbn. now rewrite Hx, IH. Qed.

Lemma existsb_ext_all {A : Type} (f g : A -> bool) (l : list A) :
  (forall x, f x = g x) -> existsb f l = existsb g l.
Proof. intros H. apply existsb_ext_in, List.Forall_forall. auto. Qed.

Lemma search_nil (p : pattern) :
  search p EmptyString = match_here p EmptyString || false.
Proof. reflexivity. Qed.

Lemma search_cons (p : pattern) (c : ascii) (s : string) :
  search p (String c s) = match_here p (String c s) || search p s.
Proof. reflexivity. Qed.

Lemma search_contains (p : pattern) (s : string) :
  search p s
  = existsb (fun k => Str.contains (Str.lower k) (Str.lower s)) (alternatives p).
Proof.
  induction s as [|c s IH].
  - rewrite search_nil, orb_false_r. unfold match_here.
    apply existsb_ext_all. intros k. cbn [Str.lower Str.contains].
    now rewrite orb_false_r, match_literal_ic_starts_with.
  - rewrite search_cons, IH. unfold match_here.
    cbn [Str.lower Str.contains]. rewrite existsb_orb. f_equal.
    apply existsb_ext_all. intros k.
    now rewrite match_literal_ic_starts_with.
Qed.

(** X1. On a title whose characters all lie in U+0000..U+00FF (the
    strings of this embedding), the keyword filter is a caseless substring
    test: the title passes exactly when its lower-cased form contains one
    of the keywords.  (Beyond U+00FF the pattern also accepts U+0130,
    U+0131, U+017F and U+212A for i, s and k, which [str.lower] does not
    turn into those letters.) *)
Theorem keyword_filter_is_substring_test (s : string) :
  search KEYWORD_PATTERN s
  = existsb (fun k => Str.contains k (Str.lower s)) FINANCE_KEYWORDS.
Proof.
  rewrite search_contains. apply existsb_ext_in.
  eapply List.Forall_impl; [| exact keywords_lower_case].
  intros k Hk. cbn beta in *. now rewrite Hk.
Qed.

(** X2. On texts whose characters all lie in U+0000..U+00FF (the strings
    of this embedding), the score and the filter depend on the text only
    through its lower-cased form: two texts that differ in case alone get
    the same score and the same filter verdict, and so does a text and
    its lower-cased form. *)
Theorem score_and_filter_ignore_case (a b : string)
  (Hsame : Str.lower a = Str.lower b) :
  compute_relevance (PyStr a) = compute_relevance (PyStr b)
  /\ search KEYWORD_PATTERN a = search KEYWORD_PATTERN b
  /\ compute_relevance (PyStr (Str.lower a)) = compute_relevance (PyStr a)
  /\ search KEYWORD_PATTERN (Str.lower a) = search KEYWORD_PATTERN a.
Proof.
  repeat split.
  - now rewrite !compute_relevance_str, Hsame.
  - now rewrite !search_contains, Hsame.
  - now rewrite !compute_relevance_str, lower_idem.
  - now rewrite !search_contains, lower_idem.
Qed.

Lemma score_and_filter_ignore_case_witness :
  compute_relevance (PyStr "HDFC Bank Q1") = compute_relevance (PyStr "hdfc BANK q1")
  /\ search KEYWORD_PATTERN "HDFC Bank Q1" = search KEYWORD_PATTERN "hdfc BANK q1"
  /\ compute_relevance (PyStr (Str.lower "HDFC Bank Q1"))
     = compute_relevance (PyStr "HDFC Bank Q1")
  /\ search KEYWORD_PATTERN (Str.lower "HDFC Bank Q1")
     = search KEYWORD_PATTERN "HDFC Bank Q1".
Proof.
  apply (score_and_filter_ignore_case "HDFC Bank Q1" "hdfc BANK q1"). reflexivity.
Defined.

(** ** Bounds and composition of the score *)

Lemma distinct_count (l : list string) (w : string) :
  distinct l = true ->
  sum_Z (map (fun k => if String.eqb k w then 1 else 0) l) <= 1.
Proof.
  induction l as [|k l IH]; [cbn; lia |].
  cbn [distinct map]. rewrite sum_Z_cons, andb_true_iff, negb_true_iff.
  intros [Hk Hl]. specialize (IH Hl).
  destruct (String.eqb k w) eqn:E; [| lia].
  apply String.eqb_eq in E. subst w.
  assert (Hzero : sum_Z (map (fun k0 => if String.eqb k0 k then 1 else 0) l) = 0).
  { clear IH Hl. induction l as [|x l IHl]; [reflexivity |].
    cbn [existsb] in Hk. apply orb_false_elim in Hk as [Hx Hk].
    cbn [map]. rewrite sum_Z_cons, (IHl Hk).
    rewrite String.eqb_sym in Hx. now rewrite Hx. }
  lia.
Qed.

Lemma sum_Z_add {A : Type} (f g : A -> Z) (l : list A) :
  sum_Z (map (fun x => f x + g x) l) = sum_Z (map f l) + sum_Z (map g l).
Proof.
  induction l as [|x l IH]; [reflexivity |].
  cbn [map]. rewrite !sum_Z_cons, IH. lia.
Qed.

(** Over a list of distinct keys, the frequencies add up to at most the
    number of words. *)
Lemma frequencies_bounded (l ws : list string) :
  distinct l = true ->
  sum_Z (map (fun k => frequency k ws) l) <= len ws.
Proof.
  intros Hl. unfold len. induction ws as [|w ws IH].
  - cbn [length]. replace (sum_Z _) with 0; [lia |].
    clear Hl. induction l as [|k l IHl]; [reflexivity |].
    cbn [map]. now rewrite sum_Z_cons, <- IHl.
  - rewrite (map_ext _ (fun k => (if String.eqb k w then 1 else 0) + frequency k ws))
      by (intros k; apply frequency_cons).
    rewrite sum_Z_add. pose proof (distinct_count l w Hl).
    cbn [length]. lia.
Qed.

Lemma map_lower_keywords (f : string -> Z) :
  map (fun k => f (Str.lower k)) FINANCE_KEYWORDS = map f FINANCE_KEYWORDS.
Proof.
  pose proof keywords_lower_case as H.
  induction H as [|k l Hk Hl IH]; [reflexivity |].
  cbn [map]. now rewrite Hk, IH.
Qed.

Lemma keywords_distinct : distinct FINANCE_KEYWORDS = true.
Proof. vm_compute. reflexivity. Qed.

(** X3. The score of a text is at most the number of its word tokens: the
    keyword list has no repetition, so a token is counted at most once. *)
Theorem score_at_most_token_count (s : string) :
  compute_relevance (PyStr s) <= len (Str.findall_words (Str.lower s)).
Proof.
  rewrite compute_relevance_str.
  rewrite (map_lower_keywords (fun k => frequency k (Str.findall_words (Str.lower s)))).
  apply frequencies_bounded, keywords_distinct.
Qed.

Lemma scan_words_app (c : ascii) (a b run : string) :
  Str.is_word_char c = false ->
  Str.scan_words run (a ++ String c b)%string
  = Str.scan_words run a ++ Str.findall_words b.
Proof.
  intros Hc. revert run. induction a as [|x a IH]; intros run.
  - rewrite str_app_nil. cbn [Str.scan_words]. now rewrite Hc.
  - rewrite str_app_cons. cbn [Str.scan_words].
    destruct (Str.is_word_char x).
    + apply IH.
    + now rewrite IH, app_assoc.
Qed.

Lemma frequency_app (k : string) (u v : list string) :
  frequency k (u ++ v) = frequency k u + frequency k v.
Proof. unfold frequency. rewrite List.filter_app, length_app. lia. Qed.

(** X4. The score is additive across a separator: when two texts are
    joined by a character outside [\w] (a blank, a hyphen, a comma), the
    score of the whole is the sum of the scores of the parts. *)
Theorem score_additive_across_separator (a b : string) (c : ascii)
  (Hc : Str.is_word_char c = false) :
  compute_relevance (PyStr (a ++ String c b)%string)
  = compute_relevance (PyStr a) + compute_relevance (PyStr b).
Proof.
  rewrite !compute_relevance_str, <- sum_Z_add. f_equal.
  apply map_ext. intros k.
  change (String c b) with (String c EmptyString ++ b)%string.
  rewrite !lower_app. cbn [Str.lower]. rewrite str_app_cons, str_app_nil.
  unfold Str.findall_words at 1.
  rewrite scan_words_app by (now rewrite lower_char_word).
  apply frequency_app.
Qed.

Lemma score_additive_across_separator_witness :
  compute_relevance (PyStr ("HDFC Bank profit" ++ String "," " RBI repo rate")%string)
  = compute_relevance (PyStr "HDFC Bank profit") + compute_relevance (PyStr " RBI repo rate").
Proof.
  apply (score_additive_across_separator "HDFC Bank profit" " RBI repo rate" ","%char).
  reflexivity.
Defined.

(** ** The fetcher on a decoded body *)

Lemma score_positive_passes_filter (t : string) :
  1 <= compute_relevance (PyStr t) -> search KEYWORD_PATTERN t = true.
Proof.
  intros H. rewrite compute_relevance_str in H.
  apply sum_Z_pos_exists in H.
  - destruct H as [x [Hx Hx1]].
    apply in_map_iff in Hx as [k [<- Hk]].
    apply frequency_pos_in, (scan_words_contains _ EmptyString) in Hx1.
    rewrite str_app_nil in Hx1.
    now apply (search_lower_contains KEYWORD_PATTERN k).
  - apply Forall_map, List.Forall_forall. intros k _. apply frequency_nonneg.
Qed.

Lemma py_get_field (d : list (string * pyval)) (k : string) :
  py_get (PyDict d) k PyNone = (Ok (field_of d k), []).
Proof. unfold py_get, field_of. now destruct (dict_lookup d k). Qed.

Lemma py_get_title (d : list (string * pyval)) :
  py_get (PyDict d) "title" (PyStr EmptyString) = (Ok (title_of d), []).
Proof. unfold py_get, title_of. now destruct (dict_lookup d "title"). Qed.

Lemma empty_title_score : compute_relevance (PyStr EmptyString) = 0.
Proof. vm_compute. reflexivity. Qed.

(** A well-titled element is passed without an exception and contributes
    [kept]. *)
Lemma fetch_one_well_titled (acc : list article) (a : pyval) :
  well_titled a = true -> fetch_one acc a = (Ok (acc ++ kept a), []).
Proof.
  destruct a as [| b | z | f | s | l | d]; try discriminate.
  unfold well_titled, kept, fetch_one. rewrite py_get_title. cbn [bind].
  destruct (title_of d) as [| b | z | f | t | l | d'] eqn:Ht;
    try (intros ->; cbn [negb]; now rewrite app_nil_r).
  intros _. destruct (truthy (PyStr t)) eqn:Htruthy; cbn [negb].
  2:{ destruct t; [| discriminate Htruthy].
      rewrite empty_title_score. cbn. now rewrite app_nil_r. }
  cbn [pattern_search bind ret].
  destruct (search KEYWORD_PATTERN t) eqn:Hsearch; cbn [negb].
  2:{ destruct (1 <=? compute_relevance (PyStr t)) eqn:E.
      - apply Z.leb_le, score_positive_passes_filter in E. congruence.
      - now rewrite app_nil_r. }
  pose proof (compute_relevance_nonneg (PyStr t)) as Hnonneg.
  destruct (compute_relevance (PyStr t) =? 0) eqn:Hscore.
  - apply Z.eqb_eq in Hscore. rewrite Hscore. cbn. now rewrite app_nil_r.
  - apply Z.eqb_neq in Hscore.
    replace (1 <=? compute_relevance (PyStr t)) with true
      by (symmetry; apply Z.leb_le; lia).
    rewrite !py_get_field. reflexivity.
Qed.

(** Any other element raises. *)
Lemma fetch_one_ill_titled (acc : list article) (a : pyval) :
  well_titled a = false ->
  exists x, fetch_one acc a = (Raise x, [])
            /\ (x = AttributeError \/ x = TypeError).
Proof.
  destruct a as [| b | z | f | s | l | d];
    try (intros _; exists AttributeError; split; [reflexivity | now left]).
  unfold well_titled, fetch_one. rewrite py_get_title. cbn [bind].
  destruct (title_of d) as [| b | z | f | t | l | d'];
    try discriminate; intros H; apply negb_false_iff in H; rewrite H; cbn [negb];
    exists TypeError; (split; [reflexivity | now right]).
Qed.

Lemma for_each_well_titled (items : list pyval) (acc : list article) :
  forallb well_titled items = true ->
  for_each fetch_one items acc = (Ok (acc ++ flat_map kept items), []).
Proof.
  revert acc. induction items as [|a items IH]; intros acc; cbn [forallb for_each flat_map].
  - intros _. now rewrite app_nil_r.
  - rewrite andb_true_iff. intros [Ha Hitems].
    rewrite (fetch_one_well_titled acc a Ha). cbn [bind].
    rewrite (IH _ Hitems). now rewrite app_assoc.
Qed.

Lemma for_each_ill_titled (items : list pyval) (acc : list article) :
  forallb well_titled items = false ->
  exists x, for_each fetch_one items acc = (Raise x, [])
            /\ (x = AttributeError \/ x = TypeError).
Proof.
  revert acc. induction items as [|a items IH]; intros acc; cbn [forallb for_each];
    [discriminate |].
  destruct (well_titled a) eqn:Ha; cbn [andb].
  - intros Hitems. rewrite (fetch_one_well_titled acc a Ha). cbn [bind].
    destruct (IH (acc ++ kept a) Hitems) as [x [-> Hx]]. now exists x.
  - intros _. destruct (fetch_one_ill_titled acc a Ha) as [x [-> Hx]].
    now exists x.
Qed.

(** On a 200 response that carries an array, the guarded block is the
    loop over the array after the one network call. *)
Lemma fetch_body_carries (net : network) (q : query) (d e : day)
  (r : response) (items : list pyval) :
  net q d e = Answered r -> carries r items ->
  fetch_body net q d e
  = (fst (for_each fetch_one items []),
     Get q d e :: snd (for_each fetch_one items [])).
Proof.
  intros Hr [Hstatus [dict [Hjson Hlookup]]].
  unfold fetch_body, requests_get, response_json.
  rewrite Hr. cbn [bind emit ret app]. rewrite Hstatus, Hjson.
  cbn [Z.eqb Pos.eqb negb bind ret app py_contains py_getitem].
  rewrite Hlookup. cbn [negb bind ret app py_iter].
  now destruct (for_each fetch_one items []).
Qed.

(** X5. On a 200 response whose body carries an "articles" array of
    objects with [str] (or missing, or false-valued) titles, the fetcher
    returns, in the order of the array, the record of every element whose
    title scores at least 1, with the provider's fields taken as they are
    ([None] for a missing key); the keyword pre-filter rejects nothing
    the score would keep; nothing is printed. *)
Theorem fetch_well_formed_response (net : network) (q : query) (d e : day)
  (r : response) (items : list pyval)
  (Hr : net q d e = Answered r)
  (Hbody : carries r items)
  (Hitems : forallb well_titled items = true) :
  fetch_news_from_gdelt net q d e = (Ok (flat_map kept items), [Get q d e]).
Proof.
  unfold fetch_news_from_gdelt.
  rewrite (fetch_body_carries net q d e r items Hr Hbody).
  now rewrite (for_each_well_titled items [] Hitems).
Qed.

(** X6. One element of the array that is not an object, or whose title is
    a true-valued object other than a [str], voids the whole call: the
    records built from the elements before it are dropped, the error line
    is printed and the empty list is returned. *)
Theorem fetch_malformed_element_voids_call (net : network) (q : query) (d e : day)
  (r : response) (items : list pyval)
  (Hr : net q d e = Answered r)
  (Hbody : carries r items)
  (Hitems : forallb well_titled items = false) :
  exists x,
    (x = AttributeError \/ x = TypeError)
    /\ fetch_news_from_gdelt net q d e
       = (Ok [], [Get q d e; Print (MsgFetchError d x)]).
Proof.
  unfold fetch_news_from_gdelt.
  rewrite (fetch_body_carries net q d e r items Hr Hbody).
  destruct (for_each_ill_titled items [] Hitems) as [x [-> Hx]].
  exists x. split; [exact Hx | reflexivity].
Qed.

Lemma sample_net_first_day (q : query) (e : day) :
  sample_net q START_DATE e = Answered (sample_response sample_items).
Proof. reflexivity. Qed.

Lemma sample_response_carries (items : list pyval) :
  carries (sample_response items) items.
Proof. split; [reflexivity |]. eexists. split; reflexivity. Qed.

Lemma fetch_well_formed_response_witness :
  fetch_news_from_gdelt sample_net SECTOR_QUERY START_DATE (START_DATE + 1)
  = (Ok (flat_map kept sample_items),
     [Get SECTOR_QUERY START_DATE (START_DATE + 1)]).
Proof.
  apply (fetch_well_formed_response sample_net SECTOR_QUERY START_DATE
           (START_DATE + 1) (sample_response sample_items) sample_items).
  - apply sample_net_first_day.
  - apply sample_response_carries.
  - reflexivity.
Defined.

Lemma fetch_malformed_element_voids_call_witness :
  exists x,
    (x = AttributeError \/ x = TypeError)
    /\ fetch_news_from_gdelt broken_net COMPANY_QUERY START_DATE (START_DATE + 1)
       = (Ok [], [Get COMPANY_QUERY START_DATE (START_DATE + 1);
                  Print (MsgFetchError START_DATE x)]).
Proof.
  eapply (fetch_malformed_element_voids_call broken_net COMPANY_QUERY START_DATE
            (START_DATE + 1)).
  - reflexivity.
  - apply sample_response_carries.
  - reflexivity.
Defined.

(** ** Which responses can yield records *)

Lemma fetch_body_decoded (net : network) (q : query) (d e : day)
  (r : response) (data : pyval) :
  net q d e = Answered r -> status_code r = 200 -> json r = Some data ->
  fetch_body net q d e = (fst (scan_body data), Get q d e :: snd (scan_body data)).
Proof.
  intros Hr Hstatus Hjson.
  unfold fetch_body, requests_get, response_json.
  rewrite Hr. cbn [bind emit ret app]. rewrite Hstatus, Hjson.
  cbn [Z.eqb Pos.eqb negb bind ret app]. fold (scan_body data).
  now destruct (scan_body data).
Qed.

Lemma for_each_strings (items : list pyval) :
  Forall (fun a => exists s, a = PyStr s) items ->
  for_each fetch_one items [] = (Ok [], [])
  \/ exists x, for_each fetch_one items [] = (Raise x, []).
Proof.
  destruct 1 as [|a rest [s ->] _]; [now left |].
  right. exists AttributeError. reflexivity.
Qed.

Lemma chars_strings (s : string) : Forall (fun a => exists t, a = PyStr t) (chars s).
Proof. induction s; constructor; eauto. Qed.

(** From the decoded body on: either the body is an object with an array
    under "articles" and the block is the loop over it, or the block ends
    with the empty list, or it raises; in no case is anything logged
    before the loop. *)
Lemma scan_body_cases (data : pyval) :
  (exists d items,
      data = PyDict d /\ dict_lookup d "articles" = Some (PyList items)
      /\ scan_body data = for_each fetch_one items [])
  \/ scan_body data = (Ok [], [])
  \/ exists x, scan_body data = (Raise x, []).
Proof.
  unfold scan_body.
  destruct data as [| b | z | f | s | l | d]; cbn [py_contains bind raise ret app];
    try (right; right; eexists; reflexivity).
  - destruct (Str.contains "articles" s); cbn [negb py_getitem bind raise ret app];
      [right; right; eexists; reflexivity | right; now left].
  - destruct (existsb (is_str "articles") l); cbn [negb py_getitem bind raise ret app];
      [right; right; eexists; reflexivity | right; now left].
  - unfold py_getitem. destruct (dict_lookup d "articles") as [arts |] eqn:Hl;
      cbn [negb bind raise ret app]; [| right; now left].
    destruct arts as [| b | z | f | s | l | d'];
      cbn [py_iter bind raise ret app]; try (right; right; eexists; reflexivity).
    + right. destruct (for_each_strings (chars s) (chars_strings s)) as [-> | [x ->]];
        [now left | right; now exists x].
    + left. exists d, l. split; [reflexivity |]. split; [exact Hl |].
      now destruct (for_each fetch_one l []).
    + right.
      destruct (for_each_strings (map (fun kv => PyStr (fst kv)) d')) as [-> | [x ->]];
        [| now left | right; now exists x].
      apply List.Forall_forall. intros a Ha.
      apply in_map_iff in Ha as [kv [<- _]]. eauto.
Qed.

(** X7. The fetcher returns records only for a 200 response whose body
    decodes to an object holding an array under "articles", all of whose
    elements are well-titled objects; the records are then those of the
    elements that score.  A body of any other shape (a list, a string, a
    number, an object whose "articles" is an object or a string) gives
    the empty list. *)
Theorem fetch_records_need_articles_array (net : network) (q : query) (d e : day)
  (a : article) (l : list article)
  (Hres : fst (fetch_news_from_gdelt net q d e) = Ok (a :: l)) :
  exists r items,
    net q d e = Answered r
    /\ carries r items
    /\ forallb well_titled items = true
    /\ a :: l = flat_map kept items.
Proof.
  unfold fetch_news_from_gdelt in Hres.
  destruct (net q d e) as [| r] eqn:Hr.
  { unfold fetch_body, requests_get in Hres. rewrite Hr in Hres. discriminate Hres. }
  destruct (status_code r =? 200) eqn:Hs.
  2:{ unfold fetch_body, requests_get in Hres. rewrite Hr in Hres.
      cbn [bind emit ret app] in Hres. rewrite Hs in Hres. discriminate Hres. }
  apply Z.eqb_eq in Hs.
  destruct (json r) as [data |] eqn:Hj.
  2:{ unfold fetch_body, requests_get, response_json in Hres. rewrite Hr in Hres.
      cbn [bind emit ret app] in Hres. rewrite Hs, Hj in Hres. discriminate Hres. }
  rewrite (fetch_body_decoded net q d e r data Hr Hs Hj) in Hres.
  destruct (scan_body_cases data) as [[dict [items [-> [Hl Hscan]]]] | [E | [x E]]];
    [| rewrite E in Hres; discriminate Hres | rewrite E in Hres; discriminate Hres].
  rewrite Hscan in Hres. exists r, items.
  assert (Hc : carries r items) by (split; [exact Hs | now exists dict]).
  destruct (forallb well_titled items) eqn:Hw.
  - rewrite (for_each_well_titled items [] Hw) in Hres.
    cbn [fst try_except app] in Hres. injection Hres as Hres. auto.
  - destruct (for_each_ill_titled items [] Hw) as [x [E _]].
    rewrite E in Hres. discriminate Hres.
Qed.

Lemma fetch_records_need_articles_array_witness :
  exists r items,
    sample_net COMPANY_QUERY START_DATE (START_DATE + 1) = Answered r
    /\ carries r items
    /\ forallb well_titled items = true.
Proof.
  edestruct (fetch_records_need_articles_array sample_net COMPANY_QUERY START_DATE
               (START_DATE + 1)) as [r [items [H1 [H2 [H3 _]]]]].
  - vm_compute. reflexivity.
  - exists r, items. auto.
Defined.

Lemma substring_length (n : nat) (s : string) :
  (String.length (String.substring 0 n s) <= n)%nat.
Proof.
  revert s. induction n as [|n IH]; intros [|c s]; cbn; try lia.
  specialize (IH s). lia.
Qed.

(** X8. A fetch call makes one network call and prints at most one line,
    and none when the guarded block ends without an exception on a 200
    response; the status line is printed for a status other than 200 and
    quotes at most the first 100 characters of the body; the error line
    goes with the empty list. *)
Theorem fetch_log_shape (net : network) (q : query) (d e : day) :
  (exists r l,
      net q d e = Answered r /\ status_code r = 200
      /\ fetch_news_from_gdelt net q d e = (Ok l, [Get q d e]))
  \/ (exists r,
        net q d e = Answered r /\ status_code r <> 200
        /\ fetch_news_from_gdelt net q d e
           = (Ok [], [Get q d e;
                      Print (MsgHttpStatus (status_code r) d
                               (String.substring 0 100 (text r)))])
        /\ (String.length (String.substring 0 100 (text r)) <= 100)%nat)
  \/ (exists x,
        fetch_news_from_gdelt net q d e
        = (Ok [], [Get q d e; Print (MsgFetchError d x)])).
Proof.
  unfold fetch_news_from_gdelt.
  destruct (net q d e) as [| r] eqn:Hr.
  { right; right. exists RequestException.
    unfold fetch_body, requests_get. now rewrite Hr. }
  destruct (status_code r =? 200) eqn:Hs.
  2:{ right; left. exists r. split; [reflexivity |].
      split; [now apply Z.eqb_neq |]. split; [| apply substring_length].
      unfold fetch_body, requests_get. rewrite Hr.
      cbn [bind emit ret app]. now rewrite Hs. }
  apply Z.eqb_eq in Hs.
  destruct (json r) as [data |] eqn:Hj.
  2:{ right; right. exists JSONDecodeError.
      unfold fetch_body, requests_get, response_json. rewrite Hr.
      cbn [bind emit ret app]. now rewrite Hs, Hj. }
  rewrite (fetch_body_decoded net q d e r data Hr Hs Hj).
  assert (Hloop : forall items,
             exists res, for_each fetch_one items [] = (res, [])).
  { intros items. destruct (for_each_fetch_one items []) as [res [E _]];
      [constructor | eauto]. }
  assert (Hscan : exists res, scan_body data = (res, [])).
  { destruct (scan_body_cases data) as [[dict [items [_ [_ ->]]]] | [-> | [x ->]]];
      eauto. }
  destruct Hscan as [[l | x] ->]; cbn [fst snd try_except print emit bind ret app].
  - left. now exists r, l.
  - right; right. now exists x.
Qed.

(** ** The log of a run *)

Lemma fetch_events_quiet (w : list event) :
  Forall (fun ev => fetch_event ev = true) w -> requested w = [] ->
  schedule w = [] /\ company_lines w = [] /\ sector_lines w = [].
Proof.
  induction 1 as [|ev w Hev Hw IH]; [auto |].
  destruct ev as [q d e | m | s | f rows]; try discriminate.
  intros Hreq. destruct m; try discriminate Hev; apply IH, Hreq.
Qed.

(** The log of a fetch call: the network call, then console lines of the
    fetcher only. *)
Lemma fetch_log_quiet (net : network) (q : query) (d e : day) :
  exists w,
    snd (fetch_news_from_gdelt net q d e) = Get q d e :: w
    /\ schedule w = [] /\ company_lines w = [] /\ sector_lines w = [].
Proof.
  unfold fetch_news_from_gdelt.
  destruct (fetch_body_cases net q d e) as [res [w [-> [Hw [Hreq _]]]]].
  destruct res as [l | x]; cbn [try_except print emit bind ret app snd].
  - exists w. split; [reflexivity |]. now apply fetch_events_quiet.
  - exists (w ++ [Print (MsgFetchError d x)]). split; [reflexivity |].
    apply fetch_events_quiet.
    + apply Forall_app. split; [exact Hw | now repeat constructor].
    + rewrite requested_app, Hreq. reflexivity.
Qed.

Lemma day_body_log (net : network) (st : loop_state) :
  snd (day_body net st) = day_log net (current_date st).
Proof.
  unfold day_body, day_log, day_company, day_sector, fetched.
  destruct (fetch_news_from_gdelt_returns net COMPANY_QUERY (current_date st)
              (current_date st + 1)) as [lc [wc [-> _]]].
  destruct (fetch_news_from_gdelt_returns net SECTOR_QUERY (current_date st)
              (current_date st + 1)) as [ls [ws [-> _]]].
  reflexivity.
Qed.

Lemma while_days_log (net : network) (n : nat) :
  forall (fuel : nat) (st : loop_state),
    current_date st + Z.of_nat n = END_DATE + 1 ->
    (n < fuel)%nat ->
    exists r,
      while_days fuel net st
      = Some (r, flat_map (day_log net) (days_from (current_date st) n)).
Proof.
  induction n as [|n IH]; intros [|fuel] st Hdate Hfuel; try lia.
  - cbn [while_days].
    replace (current_date st <=? END_DATE) with false by (symmetry; apply Z.leb_gt; lia).
    now exists (Ok st).
  - cbn [while_days].
    replace (current_date st <=? END_DATE) with true by (symmetry; apply Z.leb_le; lia).
    pose proof (day_body_log net st) as Hlog.
    destruct (day_body_run net st) as [w1 [E _]].
    rewrite E in Hlog |- *. cbn [snd] in Hlog. subst w1.
    match goal with
    | |- context [while_days fuel net ?s] =>
        destruct (IH fuel s) as [r ->]; cbn [current_date]; try lia
    end.
    exists r. now rewrite days_from_succ.
Qed.

(** The whole log of the loop of [main]: the logs of the days. *)
Lemma loop_log (net : network) :
  while_days loop_bound net initial_state
  = Some (Ok (final_state net), flat_map (day_log net) all_days).
Proof.
  destruct (main_loop_run net) as [w [Hloop _]].
  destruct (while_days_log net _ loop_bound initial_state range_length
              loop_bound_enough) as [r Hlog].
  change (days_from (current_date initial_state)
            (Z.to_nat (END_DATE - START_DATE + 1))) with all_days in Hlog.
  pose proof Hloop as Heq. rewrite Hlog in Heq.
  apply some_pair_inj in Heq as [_ Heq]. rewrite Heq. exact Hloop.
Qed.

Lemma schedule_app (w1 w2 : list event) : schedule (w1 ++ w2) = schedule w1 ++ schedule w2.
Proof. apply List.filter_app. Qed.

Lemma company_lines_app (w1 w2 : list event) :
  company_lines (w1 ++ w2) = company_lines w1 ++ company_lines w2.
Proof. apply flat_map_app. Qed.

Lemma sector_lines_app (w1 w2 : list event) :
  sector_lines (w1 ++ w2) = sector_lines w1 ++ sector_lines w2.
Proof. apply flat_map_app. Qed.

Lemma day_log_projections (net : network) (d : day) :
  schedule (day_log net d) = day_schedule d
  /\ company_lines (day_log net d) = [len (day_company net d)]
  /\ sector_lines (day_log net d) = [len (day_sector net d)].
Proof.
  unfold day_log.
  destruct (fetch_log_quiet net COMPANY_QUERY d (d + 1)) as [wc [-> [Hc1 [Hc2 Hc3]]]].
  destruct (fetch_log_quiet net SECTOR_QUERY d (d + 1)) as [ws [-> [Hs1 [Hs2 Hs3]]]].
  repeat split.
  - change (schedule (Print (MsgFetching d) :: ?w)) with (schedule w).
    rewrite schedule_app.
    change (schedule (Get COMPANY_QUERY d (d + 1) :: wc))
      with (Get COMPANY_QUERY d (d + 1) :: schedule wc).
    change (schedule (Print ?m :: ?w)) with (schedule w).
    rewrite schedule_app.
    change (schedule (Get SECTOR_QUERY d (d + 1) :: ws))
      with (Get SECTOR_QUERY d (d + 1) :: schedule ws).
    rewrite Hc1, Hs1. reflexivity.
  - change (company_lines (Print (MsgFetching d) :: ?w)) with (company_lines w).
    rewrite company_lines_app.
    change (company_lines (Get COMPANY_QUERY d (d + 1) :: wc)) with (company_lines wc).
    change (company_lines (Print (MsgCompanyTop ?n) :: ?w)) with (n :: company_lines w).
    rewrite company_lines_app.
    change (company_lines (Get SECTOR_QUERY d (d + 1) :: ws)) with (company_lines ws).
    rewrite Hc2, Hs2. reflexivity.
  - change (sector_lines (Print (MsgFetching d) :: ?w)) with (sector_lines w).
    rewrite sector_lines_app.
    change (sector_lines (Get COMPANY_QUERY d (d + 1) :: wc)) with (sector_lines wc).
    change (sector_lines (Print (MsgCompanyTop ?n) :: ?w)) with (sector_lines w).
    rewrite sector_lines_app.
    change (sector_lines (Get SECTOR_QUERY d (d + 1) :: ws)) with (sector_lines ws).
    rewrite Hc3, Hs3. reflexivity.
Qed.

Lemma days_log_projections (net : network) (ds : list day) :
  schedule (flat_map (day_log net) ds) = flat_map day_schedule ds
  /\ company_lines (flat_map (day_log net) ds)
     = map (fun d => len (day_company net d)) ds
  /\ sector_lines (flat_map (day_log net) ds)
     = map (fun d => len (day_sector net d)) ds.
Proof.
  induction ds as [|d ds [IH1 [IH2 IH3]]]; [now repeat split |].
  destruct (day_log_projections net d) as [H1 [H2 H3]].
  cbn [flat_map map].
  rewrite schedule_app, company_lines_app, sector_lines_app.
  rewrite H1, H2, H3, IH1, IH2, IH3. now repeat split.
Qed.

Lemma in_days_from (s d : day) (n : nat) :
  In d (days_from s n) <-> s <= d < s + Z.of_nat n.
Proof.
  unfold days_from. rewrite in_map_iff. split.
  - intros [i [<- Hi]]. apply in_seq in Hi. lia.
  - intros H. exists (Z.to_nat (d - s)). split; [lia |]. apply in_seq. lia.
Qed.

(** X9. Whatever the network answers, the loop of [main] runs to its end
    and makes the same calls and pauses: for each day from [START_DATE]
    to [END_DATE], both included and in order, the company query for the
    window from that day to the next, then the sector query for the same
    window, then a pause of [REQUEST_DELAY] seconds (also after the last
    day); nothing is retried and no call is repeated. *)
Theorem main_request_schedule (net : network) :
  exists st w,
    while_days loop_bound net initial_state = Some (Ok st, w)
    /\ schedule w = flat_map day_schedule all_days
    /\ length all_days = 915%nat
    /\ (forall d, In d all_days <-> START_DATE <= d <= END_DATE).
Proof.
  exists (final_state net), (flat_map (day_log net) all_days).
  split; [apply loop_log |]. split; [| split].
  - now destruct (days_log_projections net all_days) as [-> _].
  - unfold all_days, days_from. rewrite length_map, length_seq. reflexivity.
  - intros d. unfold all_days. rewrite in_days_from.
    pose proof range_length. lia.
Qed.

(** X12. The counts on the console agree: the loop of [main] prints one
    company line and one sector line per day, each with the number of
    records the day appended for that category, and the two category
    counts the loop ends with, which the summary prints, are the sums of
    those daily lines. *)
Theorem summary_is_sum_of_daily_lines (net : network) :
  exists w st,
    while_days loop_bound net initial_state = Some (Ok st, w)
    /\ company_lines w = map (fun d => len (day_company net d)) all_days
    /\ sector_lines w = map (fun d => len (day_sector net d)) all_days
    /\ total_company st = sum_Z (company_lines w)
    /\ total_sector st = sum_Z (sector_lines w)
    /\ (forall ties : rearrangement,
          all_articles st <> [] ->
          textual_urls (all_articles st) = true ->
          textual_dates (all_articles st) = true ->
          exists saved,
            main ties net
            = Some (Ok tt,
                    w ++ [ ToCsv OUTPUT_FILE (table ties (all_articles st));
                           Print MsgComplete;
                           Print (MsgSummary saved (sum_Z (company_lines w))
                                    (sum_Z (sector_lines w)));
                           Print (MsgFile OUTPUT_FILE) ])).
Proof.
  pose proof (loop_log net) as Hloop.
  destruct (days_log_projections net all_days) as [_ [Hc Hs]].
  exists (flat_map (day_log net) all_days), (final_state net).
  split; [exact Hloop |]. split; [exact Hc |]. split; [exact Hs |].
  rewrite Hc, Hs. split; [reflexivity |]. split; [reflexivity |].
  intros ties Hacc Hurls Hdates.
  exists (len (table ties (all_articles (final_state net)))).
  unfold main, main_bounded. rewrite Hloop.
  rewrite (materialize_covered ties _ (conj Hurls Hdates)).
  unfold closing_events. now destruct (all_articles (final_state net)).
Qed.

Lemma summary_is_sum_of_daily_lines_witness :
  exists w saved company sector,
    main input_order sample_net
    = Some (Ok tt,
            w ++ [ ToCsv OUTPUT_FILE (table input_order (accumulated sample_net));
                   Print MsgComplete;
                   Print (MsgSummary saved company sector);
                   Print (MsgFile OUTPUT_FILE) ]).
Proof.
  destruct (summary_is_sum_of_daily_lines sample_net)
    as [w [st [Hloop [_ [_ [_ [_ Hsummary]]]]]]].
  assert (Hst : all_articles st = accumulated sample_net).
  { rewrite (loop_final_state sample_net st w Hloop). reflexivity. }
  destruct (Hsummary input_order) as [saved Hmain]; rewrite ?Hst.
  - vm_compute. discriminate.
  - vm_compute. reflexivity.
  - vm_compute. reflexivity.
  - rewrite Hst in Hmain. exists w, saved. eexists _, _. exact Hmain.
Defined.

(** ** Size and origin of the output *)

Lemma sum_Z_bounded {A : Type} (f : A -> Z) (b : Z) (l : list A) :
  (forall x, 0 <= f x <= b) -> 0 <= sum_Z (map f l) <= b * len l.
Proof.
  intros Hf. unfold len. induction l as [|x l IH]; [cbn; lia |].
  cbn [map length]. rewrite sum_Z_cons. specialize (Hf x). lia.
Qed.

Lemma len_firstn_le {A : Type} (n : nat) (l : list A) :
  0 <= len (firstn n l) <= Z.of_nat n.
Proof. unfold len. pose proof (firstn_le_length n l). lia. Qed.

(** X11. A run accumulates at most 15 company and 30 sector records per
    day, so over the 915 days the company count is at most 13725, the
    sector count at most 27450, the accumulator holds at most 41175
    records, and the file has no more rows than the accumulator, whatever
    order the sort gives to rows of equal date. *)
Theorem output_size_bounds (net : network) :
  exists w st,
    while_days loop_bound net initial_state = Some (Ok st, w)
    /\ 0 <= total_company st <= 13725
    /\ 0 <= total_sector st <= 27450
    /\ len (all_articles st) <= 41175
    /\ len (table input_order (all_articles st)) <= len (all_articles st)
    /\ (forall ties : rearrangement,
          permutes ties ->
          len (table ties (all_articles st)) <= len (all_articles st)).
Proof.
  exists (flat_map (day_log net) all_days), (final_state net).
  split; [apply loop_log |].
  assert (Hlen : len all_days = 915).
  { unfold len, all_days, days_from. rewrite length_map, length_seq. reflexivity. }
  assert (Hc : 0 <= total_company (final_state net) <= 15 * len all_days).
  { apply sum_Z_bounded. intros d. apply (len_firstn_le 15). }
  assert (Hs : 0 <= total_sector (final_state net) <= 30 * len all_days).
  { apply sum_Z_bounded. intros d. apply (len_firstn_le 30). }
  pose proof (totals_length net all_days) as Htot.
  change (sum_Z (map (fun d => len (day_company net d)) all_days))
    with (total_company (final_state net)) in Htot.
  change (sum_Z (map (fun d => len (day_sector net d)) all_days))
    with (total_sector (final_state net)) in Htot.
  change (accumulated_over net all_days) with (all_articles (final_state net)) in Htot.
  destruct (drop_duplicates_from_length (all_articles (final_state net)) [])
    as [Hle _].
  fold (drop_duplicates (all_articles (final_state net))) in Hle.
  assert (Htable : forall ties : rearrangement, permutes ties ->
            len (table ties (all_articles (final_state net)))
            <= len (all_articles (final_state net))).
  { intros ties Hties. rewrite (table_length ties _ Hties). unfold len. lia. }
  repeat split; try lia; try exact Htable.
  apply Htable, permutes_input_order.
Qed.

Lemma in_selection (tag : string) (n : nat) (F : list article) (r : article) :
  In r (firstn n (sorted_by_score_desc (map (set_category tag) F))) ->
  exists a, In a F /\ r = set_category tag a.
Proof.
  intros Hr.
  assert (Hin : In r (sorted_by_score_desc (map (set_category tag) F))).
  { rewrite <- (firstn_skipn n). apply in_or_app. now left. }
  apply (Permutation_in _ (stable_sort_perm _ _)), in_map_iff in Hin.
  destruct Hin as [a [<- Ha]]. eauto.
Qed.

Lemma accumulated_origin (net : network) (r : article) :
  In r (accumulated net) -> has_origin net r.
Proof.
  unfold accumulated, accumulated_over. rewrite in_flat_map.
  intros [d [Hd Hr]]. unfold day_articles in Hr.
  apply in_app_or in Hr as [Hr | Hr]; apply in_selection in Hr as [a [Ha ->]];
    exists d, a; (split; [exact Hd |]); [left | right]; now split.
Qed.

(** X10. A run invents and alters nothing: every record of the
    accumulator, and so every row of the file [main] writes (for a table
    the embedding covers), is a record returned by the fetch of some day
    of the range for one of the two queries, unchanged except for the
    category, which is "company" for the company query and "sector" for
    the sector query; so no row lacks its category. *)
Theorem output_rows_have_origin (net : network) :
  (exists w st,
      while_days loop_bound net initial_state = Some (Ok st, w)
      /\ Forall (has_origin net) (all_articles st)
      /\ Forall (fun r => category r = Some "company" \/ category r = Some "sector")
           (all_articles st))
  /\ (forall ties : rearrangement,
        permutes ties ->
        textual_urls (accumulated net) = true ->
        textual_dates (accumulated net) = true ->
        exists w,
          main ties net = Some (Ok tt, w)
          /\ written w = match accumulated net with
                         | [] => []
                         | _ :: _ => [(OUTPUT_FILE, table ties (accumulated net))]
                         end
          /\ Forall (has_origin net) (table ties (accumulated net))
          /\ Forall (fun r => category r = Some "company" \/ category r = Some "sector")
               (table ties (accumulated net))).
Proof.
  assert (Htag : forall l, Forall (has_origin net) l ->
            Forall (fun r => category r = Some "company" \/ category r = Some "sector") l).
  { intros l. apply List.Forall_impl.
    intros r [d [a [_ [[_ ->] | [_ ->]]]]]; [now left | now right]. }
  split.
  - exists (flat_map (day_log net) all_days), (final_state net).
    split; [apply loop_log |].
    assert (Horigin : Forall (has_origin net) (all_articles (final_state net))).
    { apply List.Forall_forall. intros r Hr. now apply accumulated_origin. }
    split; [exact Horigin | now apply Htag].
  - intros ties Hties Hurls Hdates.
    destruct (main_outcome ties net (conj Hurls Hdates)) as [w [_ [Hmain [Hw _]]]].
    eexists. split; [exact Hmain |]. split; [now apply written_main |].
    assert (Horigin : Forall (has_origin net) (table ties (accumulated net))).
    { apply List.Forall_forall. intros r Hr.
      now apply accumulated_origin, (table_in ties). }
    split; [exact Horigin | now apply Htag].
Qed.

Lemma output_rows_have_origin_witness :
  exists w,
    main input_order sample_net = Some (Ok tt, w)
    /\ written w = match accumulated sample_net with
                   | [] => []
                   | _ :: _ => [(OUTPUT_FILE, table input_order (accumulated sample_net))]
                   end
    /\ Forall (has_origin sample_net) (table input_order (accumulated sample_net))
    /\ Forall (fun r => category r = Some "company" \/ category r = Some "sector")
         (table input_order (accumulated sample_net)).
Proof.
  apply (proj2 (output_rows_have_origin sample_net) input_order).
  - intros rows. reflexivity.
  - vm_compute. reflexivity.
  - vm_compute. reflexivity.
Defined.
